(** * validate_lws.py: shape validator for light-wallet-server JSON replies

    A shallow embedding of [src/validate_lws.py].  The script reads one JSON
    document from standard input and checks either its [outputs] list (each
    element must carry a 64-digit hexadecimal [tx_pub_key]) or its
    [transactions] list (each element must carry [spent_outputs]).

    - Python values produced by [json.load] are the inductive [pyobj].
    - Python strings are lists of Unicode code points.
    - Expressions that may raise evaluate to a [result].
    - Statements run in a state-and-exception monad [M] whose state is the
      text written to standard output so far.  [sys.exit] raises
      [SystemExit], which [except Exception] does not catch.
    - Writing a line to standard output is taken to succeed.
    - [json.load] belongs to the Python standard library; the script is
      modelled from the outcome of that call: the parsed document, or the
      exception raised. *)

From Stdlib Require Import String Ascii List NArith ZArith Bool Arith Lia.
From Stdlib Require Import Floats.SpecFloat.
Import ListNotations.

#[local] Set Warnings "-register-all".


(* ================================================================== *)
(** ** Python values *)

(** A Python [str] is a sequence of code points (0 .. 0x10FFFF, lone
    surrogates included: [json.load] produces them from [\udXXX] escapes). *)
Definition codepoint := N.
Definition pystr := list codepoint.

(** A string literal of the source, as a Python [str]. *)
Definition str_of (s : string) : pystr :=
  map N_of_ascii (list_ascii_of_string s).

(** What [json.load] can return: [None], [bool], [int], [float], [str],
    [list] and [dict] (keys are always [str]; a [dict] keeps insertion
    order and its keys are pairwise distinct). *)
Inductive pyobj : Type :=
| PNone
| PBool (b : bool)
| PInt (n : Z)
| PFloat (f : spec_float)
| PStr (s : pystr)
| PList (xs : list pyobj)
| PDict (kvs : list (pystr * pyobj)).

Inductive pytype : Type :=
| TNone | TBool | TInt | TFloat | TStr | TList | TDict.

Definition type_of (v : pyobj) : pytype :=
  match v with
  | PNone => TNone
  | PBool _ => TBool
  | PInt _ => TInt
  | PFloat _ => TFloat
  | PStr _ => TStr
  | PList _ => TList
  | PDict _ => TDict
  end.

(* ================================================================== *)
(** ** Exceptions *)

(** The ways a [TypeError] arises in this script. *)
Inductive type_error : Type :=
| NoLen (t : pytype)             (* len(x) on an unsized object *)
| NotContainer (t : pytype)      (* k in x on a non-container *)
| NotIterable (t : pytype)       (* iter(x) on a non-iterable *)
| NotSubscriptable (t : pytype)  (* x[k] on an object without __getitem__ *)
| BadIndex (t : pytype)          (* x['key'] on a list or a str *)
| ExpectedString (t : pytype).   (* re.match(pattern, x), x not a str *)

(** Subclasses of [Exception]. *)
Inductive exn : Type :=
| JSONDecodeError (msg : string)     (* msg: the parser's description *)
| UnicodeDecodeError (msg : string)  (* stdin is not UTF-8 text *)
| RecursionError
| TypeError (why : type_error)
| KeyError (key : pystr)
| AttributeError (t : pytype) (attr : string)
| UnicodeEncodeError (pos : nat) (c : codepoint).

(** What a statement can raise: [SystemExit] derives from [BaseException],
    not from [Exception]. *)
Inductive raised : Type :=
| SystemExit (code : Z)
| Exception (e : exn).

(** Value of an expression. *)
Inductive result (A : Type) : Type :=
| Ok (a : A)
| Error (e : exn).
Arguments Ok {A} a.
Arguments Error {A} e.

Definition rbind {A B} (r : result A) (k : A -> result B) : result B :=
  match r with
  | Ok a => k a
  | Error e => Error e
  end.

(* ================================================================== *)
(** ** Built-in operations on JSON values *)

Definition pystr_eqb (a b : pystr) : bool :=
  if list_eq_dec N.eq_dec a b then true else false.

(** [dict] lookup. *)
Fixpoint dict_get (kvs : list (pystr * pyobj)) (k : pystr) : option pyobj :=
  match kvs with
  | [] => None
  | (k', v) :: rest => if pystr_eqb k' k then Some v else dict_get rest k
  end.

(** [a.startswith(b)] and the substring test [needle in hay] on [str]. *)
Fixpoint starts_with (s p : pystr) : bool :=
  match p, s with
  | [], _ => true
  | _ :: _, [] => false
  | c :: p', d :: s' => N.eqb c d && starts_with s' p'
  end.

Fixpoint str_contains (hay needle : pystr) : bool :=
  starts_with hay needle ||
  match hay with
  | [] => false
  | _ :: hay' => str_contains hay' needle
  end.

(** [x == k] for a [str] k: only an equal [str] compares equal. *)
Definition eq_str (x : pyobj) (k : pystr) : bool :=
  match x with
  | PStr s => pystr_eqb s k
  | _ => false
  end.

(** [bool(x)]. *)
Definition truthy (v : pyobj) : bool :=
  match v with
  | PNone => false
  | PBool b => b
  | PInt n => negb (Z.eqb n 0)
  | PFloat (S754_zero _) => false
  | PFloat _ => true
  | PStr s => negb (Nat.eqb (length s) 0)
  | PList xs => negb (Nat.eqb (length xs) 0)
  | PDict kvs => negb (Nat.eqb (length kvs) 0)
  end.

(** [len(x)]. *)
Definition py_len (v : pyobj) : result nat :=
  match v with
  | PStr s => Ok (length s)
  | PList xs => Ok (length xs)
  | PDict kvs => Ok (length kvs)
  | _ => Error (TypeError (NoLen (type_of v)))
  end.

(** [k in x] for a [str] k: key membership on a [dict], element membership
    on a [list], substring test on a [str]. *)
Definition py_contains (k : pystr) (v : pyobj) : result bool :=
  match v with
  | PDict kvs => Ok (match dict_get kvs k with Some _ => true | None => false end)
  | PList xs => Ok (existsb (fun x => eq_str x k) xs)
  | PStr s => Ok (str_contains s k)
  | _ => Error (TypeError (NotContainer (type_of v)))
  end.

(** [x[k]] for a [str] k. *)
Definition py_getitem (v : pyobj) (k : pystr) : result pyobj :=
  match v with
  | PDict kvs =>
      match dict_get kvs k with
      | Some x => Ok x
      | None => Error (KeyError k)
      end
  | PList _ | PStr _ => Error (TypeError (BadIndex (type_of v)))
  | _ => Error (TypeError (NotSubscriptable (type_of v)))
  end.

(** [x.get(k)]: only a [dict] has the method; a missing key gives [None]. *)
Definition py_get (v : pyobj) (k : pystr) : result pyobj :=
  match v with
  | PDict kvs =>
      match dict_get kvs k with
      | Some x => Ok x
      | None => Ok PNone
      end
  | _ => Error (AttributeError (type_of v) "get")
  end.

(** The elements [for ... in x] visits: the items of a [list], the keys of a
    [dict] in insertion order, the one-character substrings of a [str]. *)
Definition py_iter (v : pyobj) : result (list pyobj) :=
  match v with
  | PList xs => Ok xs
  | PDict kvs => Ok (map (fun kv => PStr (fst kv)) kvs)
  | PStr s => Ok (map (fun c => PStr [c]) s)
  | _ => Error (TypeError (NotIterable (type_of v)))
  end.

(* ================================================================== *)
(** ** The regular expression of [validate_hex]

    [re.match(r'^[0-9a-fA-F]+$', s)]: the fragment of Python's [re] the
    pattern uses, with a backtracking matcher.  No flag is given, so [^]
    matches only at the start of the string and [$] matches at the end of
    the string or just before a newline that ends the string. *)

Inductive re_item : Type :=
| Caret                                          (* ^ *)
| Dollar                                         (* $ *)
| ClassPlus (ranges : list (codepoint * codepoint)).  (* [a-b...]+ greedy *)

Definition in_class (ranges : list (codepoint * codepoint)) (c : codepoint) : bool :=
  existsb (fun r => N.leb (fst r) c && N.leb c (snd r)) ranges.

(** [$] at the position whose remaining input is [s]. *)
Definition at_dollar (s : pystr) : bool :=
  match s with
  | [] => true
  | [c] => N.eqb c 10
  | _ => false
  end.

(** One or more characters of the class, the longest run first, then the
    rest of the pattern [k]. *)
Fixpoint plus_then (ranges : list (codepoint * codepoint))
         (k : pystr -> bool) (s : pystr) : bool :=
  match s with
  | [] => false
  | c :: s' => in_class ranges c && (plus_then ranges k s' || k s')
  end.

(** Match the items against the input [s]; [at_start] says whether [s] is the
    whole subject string. *)
Fixpoint re_from (items : list re_item) (at_start : bool) (s : pystr) : bool :=
  match items with
  | [] => true
  | Caret :: rest => at_start && re_from rest at_start s
  | Dollar :: rest => at_dollar s && re_from rest at_start s
  | ClassPlus ranges :: rest => plus_then ranges (re_from rest false) s
  end.

(** [bool(re.match(pattern, v))]; a subject that is not a [str] raises. *)
Definition re_match (pattern : list re_item) (v : pyobj) : result bool :=
  match v with
  | PStr s => Ok (re_from pattern true s)
  | _ => Error (TypeError (ExpectedString (type_of v)))
  end.

Definition chr (a : ascii) : codepoint := N_of_ascii a.

(** [[0-9a-fA-F]] *)
Definition hex_ranges : list (codepoint * codepoint) :=
  [(chr "0", chr "9"); (chr "a", chr "f"); (chr "A", chr "F")].

(** [r'^[0-9a-fA-F]+$'] *)
Definition hex_pattern : list re_item :=
  [Caret; ClassPlus hex_ranges; Dollar].

(** [def validate_hex(s, length)] *)
Definition validate_hex (s : pyobj) (length : nat) : result bool :=
  rbind (py_len s) (fun n =>
  if negb (Nat.eqb n length) then Ok false
  else re_match hex_pattern s).

(* ================================================================== *)
(** ** [str.encode('utf-8')] and [bytes.hex()] *)

(** Bytes are numbers below 256. *)
Definition utf8_char (c : codepoint) : option (list N) :=
  if N.ltb c 0x80 then Some [c]
  else if N.ltb c 0x800 then
    Some [N.lor 0xC0 (N.shiftr c 6); N.lor 0x80 (N.land c 0x3F)]
  else if N.leb 0xD800 c && N.leb c 0xDFFF then None
  else if N.ltb c 0x10000 then
    Some [N.lor 0xE0 (N.shiftr c 12);
          N.lor 0x80 (N.land (N.shiftr c 6) 0x3F);
          N.lor 0x80 (N.land c 0x3F)]
  else
    Some [N.lor 0xF0 (N.shiftr c 18);
          N.lor 0x80 (N.land (N.shiftr c 12) 0x3F);
          N.lor 0x80 (N.land (N.shiftr c 6) 0x3F);
          N.lor 0x80 (N.land c 0x3F)].

(** The codec is strict: a surrogate raises [UnicodeEncodeError] with its
    position. *)
Fixpoint utf8_from (pos : nat) (s : pystr) : result (list N) :=
  match s with
  | [] => Ok []
  | c :: s' =>
      match utf8_char c with
      | None => Error (UnicodeEncodeError pos c)
      | Some bs => rbind (utf8_from (S pos) s') (fun rest => Ok (bs ++ rest))
      end
  end.

(** [v.encode('utf-8')]: only a [str] has the method. *)
Definition py_encode_utf8 (v : pyobj) : result (list N) :=
  match v with
  | PStr s => utf8_from 0 s
  | _ => Error (AttributeError (type_of v) "encode")
  end.

Definition hex_digit (d : N) : codepoint :=
  if N.ltb d 10 then (chr "0" + d)%N else (chr "a" + (d - 10))%N.

(** [bytes.hex()]: two lowercase digits per byte. *)
Definition bytes_hex (bs : list N) : pystr :=
  flat_map (fun b => [hex_digit (N.div b 16); hex_digit (N.modulo b 16)]) bs.

(* ================================================================== *)
(** ** Statements: standard output and exceptions *)

(** A printed line is the f-string it was built from: literal text and the
    interpolated values, in order. *)
Inductive frag : Type :=
| Lit (s : string)     (* literal text *)
| FInt (n : nat)       (* {i}, {len(...)} *)
| FObj (v : pyobj)     (* {pubkey}: str(v) *)
| FStr (s : pystr)     (* a computed str, {....hex()} *)
| FExn (e : exn).      (* {e}: str(e) *)

Definition line := list frag.
Definition stdout := list line.

Inductive outcome (A : Type) : Type :=
| Ret (a : A)
| Raise (r : raised).
Arguments Ret {A} a.
Arguments Raise {A} r.

Definition M (A : Type) : Type := stdout -> outcome A * stdout.

Definition ret {A} (a : A) : M A := fun out => (Ret a, out).

Definition bind {A B} (m : M A) (k : A -> M B) : M B :=
  fun out =>
    match m out with
    | (Ret a, out') => k a out'
    | (Raise r, out') => (Raise r, out')
    end.

Declare Scope py_scope.
Delimit Scope py_scope with py.
Notation "x <- m ;; k" := (bind m (fun x => k))
  (at level 61, m at next level, right associativity) : py_scope.
Notation "m ;; k" := (bind m (fun _ => k))
  (at level 61, right associativity) : py_scope.
Local Open Scope py_scope.

(** Evaluate an expression inside a statement. *)
Definition eval {A} (r : result A) : M A :=
  fun out =>
    match r with
    | Ok a => (Ret a, out)
    | Error e => (Raise (Exception e), out)
    end.

(** [print(f"...")].  Standard output is taken to accept every line; a
    stream that refuses some text (a strict UTF-8 one refuses a lone
    surrogate) makes [print] raise instead, which is not modelled. *)
Definition print (l : line) : M unit := fun out => (Ret tt, out ++ [l]).

(** [sys.exit(code)] *)
Definition sys_exit {A} (code : Z) : M A := fun out => (Raise (SystemExit code), out).

(** [try: body  except Exception as e: handler(e)] *)
Definition try_except (body : M unit) (handler : exn -> M unit) : M unit :=
  fun out =>
    match body out with
    | (Raise (Exception e), out') => handler e out'
    | other => other
    end.

(** [for i, x in enumerate(xs): body(i, x)], counting from [i]. *)
Fixpoint for_enumerate (body : nat -> pyobj -> M unit) (i : nat)
         (xs : list pyobj) : M unit :=
  match xs with
  | [] => ret tt
  | x :: xs' => body i x ;; for_enumerate body (S i) xs'
  end.

(* ================================================================== *)
(** ** The script *)

Definition k_outputs : pystr := str_of "outputs".
Definition k_transactions : pystr := str_of "transactions".
Definition k_tx_pub_key : pystr := str_of "tx_pub_key".
Definition k_spent_outputs : pystr := str_of "spent_outputs".

(** Body of the loop over [data['outputs']] (lines 16-28). *)
Definition check_output (i : nat) (out : pyobj) : M unit :=
  pubkey <- eval (py_get out k_tx_pub_key) ;;
  if negb (truthy pubkey) then
    print [Lit "Error: Output "; FInt i; Lit " missing tx_pub_key"] ;;
    sys_exit 1
  else
    valid <- eval (validate_hex pubkey 64) ;;
    if negb valid then
      n <- eval (py_len pubkey) ;;
      print [Lit "Error: Output "; FInt i; Lit " has invalid tx_pub_key: '";
             FObj pubkey; Lit "' len="; FInt n] ;;
      bs <- eval (py_encode_utf8 pubkey) ;;
      print [Lit "Hex repr: "; FStr (bytes_hex bs)] ;;
      sys_exit 1
    else
      print [Lit "Output "; FInt i; Lit " tx_pub_key valid: "; FObj pubkey].

(** Body of the loop over [data['transactions']] (lines 34-38). *)
Definition check_transaction (i : nat) (tx : pyobj) : M unit :=
  present <- eval (py_contains k_spent_outputs tx) ;;
  if negb present then
    print [Lit "Error: Transaction "; FInt i; Lit " missing spent_outputs"] ;;
    sys_exit 1
  else
    so <- eval (py_getitem tx k_spent_outputs) ;;
    n <- eval (py_len so) ;;
    print [Lit "Transaction "; FInt i; Lit " has spent_outputs ("; FInt n;
           Lit " items)"].

(** Lines 13-38: the [if "outputs" in data: ... elif "transactions" in
    data: ...] statement. *)
Definition dispatch (data : pyobj) : M unit :=
  has_outputs <- eval (py_contains k_outputs data) ;;
  if has_outputs then
    outs <- eval (py_getitem data k_outputs) ;;
    n <- eval (py_len outs) ;;
    print [Lit "Checking "; FInt n; Lit " outputs..."] ;;
    outs' <- eval (py_getitem data k_outputs) ;;
    xs <- eval (py_iter outs') ;;
    for_enumerate check_output 0 xs
  else
    has_transactions <- eval (py_contains k_transactions data) ;;
    if has_transactions then
      txs <- eval (py_getitem data k_transactions) ;;
      n <- eval (py_len txs) ;;
      print [Lit "Checking "; FInt n; Lit " transactions..."] ;;
      txs' <- eval (py_getitem data k_transactions) ;;
      xs <- eval (py_iter txs') ;;
      for_enumerate check_transaction 0 xs
    else
      ret tt.

(** The whole file, lines 10-44.  [loaded] is what [json.load(sys.stdin)]
    evaluates to: the parsed document, or the exception it raises. *)
Definition script (loaded : result pyobj) : M unit :=
  try_except
    (data <- eval loaded ;;
     dispatch data ;;
     print [Lit "Validation Successful"])
    (fun e =>
       print [Lit "Validation Error: "; FExn e] ;;
       sys_exit 1).

(** Process exit status: 0 when the script runs to its end, the argument of
    [sys.exit] otherwise (1 for an exception nobody caught). *)
Definition exit_status (o : outcome unit) : Z :=
  match o with
  | Ret _ => 0
  | Raise (SystemExit code) => code
  | Raise (Exception _) => 1
  end.

(** One run of the program, standard output empty at the start: what it
    printed and its exit status. *)
Definition run (loaded : result pyobj) : stdout * Z :=
  let (o, out) := script loaded [] in (out, exit_status o).

(* ================================================================== *)
(** * Vocabulary of the properties *)

(** A character of [[0-9a-fA-F]]. *)
Definition hex_char (c : codepoint) : bool := in_class hex_ranges c.

(** [emits m o ls]: whatever standard output holds before, running [m] ends
    with outcome [o] after appending the lines [ls]. *)
Definition emits {A} (m : M A) (o : outcome A) (ls : list line) : Prop :=
  forall out, m out = (o, out ++ ls).

(** The lines of a stretch of elements that all pass: [line_of i x] is what
    the body prints for element [x] at index [i]. *)
Fixpoint lines_from (line_of : nat -> pyobj -> line) (i : nat)
         (xs : list pyobj) : list line :=
  match xs with
  | [] => []
  | x :: xs' => line_of i x :: lines_from line_of (S i) xs'
  end.

(** The lines of the script, one definition per [print] statement. *)
Definition msg_checking_outputs (n : nat) : line :=
  [Lit "Checking "; FInt n; Lit " outputs..."].
Definition msg_output_missing (i : nat) : line :=
  [Lit "Error: Output "; FInt i; Lit " missing tx_pub_key"].
Definition msg_output_invalid (i : nat) (pubkey : pyobj) (n : nat) : line :=
  [Lit "Error: Output "; FInt i; Lit " has invalid tx_pub_key: '";
   FObj pubkey; Lit "' len="; FInt n].
Definition msg_hex_repr (hex : pystr) : line :=
  [Lit "Hex repr: "; FStr hex].
Definition msg_output_valid (i : nat) (pubkey : pyobj) : line :=
  [Lit "Output "; FInt i; Lit " tx_pub_key valid: "; FObj pubkey].
Definition msg_checking_transactions (n : nat) : line :=
  [Lit "Checking "; FInt n; Lit " transactions..."].
Definition msg_transaction_missing (i : nat) : line :=
  [Lit "Error: Transaction "; FInt i; Lit " missing spent_outputs"].
Definition msg_transaction_has (i n : nat) : line :=
  [Lit "Transaction "; FInt i; Lit " has spent_outputs ("; FInt n;
   Lit " items)"].
Definition msg_successful : line :=
  [Lit "Validation Successful"].
Definition msg_validation_error (e : exn) : line :=
  [Lit "Validation Error: "; FExn e].

(** The ten [print] statements of the script, by the branch they belong to
    and by what they tell: progress, a detail that precedes the last line of
    a failure, the last line of a failed run, the last line of a successful
    run. *)
Inductive topic : Type := Outputs | Transactions | General.
Inductive role : Type := Progress | Detail | Failure | Success.

Inductive line_is : topic -> role -> line -> Prop :=
| L_checking_outputs n :
    line_is Outputs Progress (msg_checking_outputs n)
| L_output_missing i :
    line_is Outputs Failure (msg_output_missing i)
| L_output_invalid i pubkey n :
    line_is Outputs Detail (msg_output_invalid i pubkey n)
| L_hex_repr hex :
    line_is Outputs Failure (msg_hex_repr hex)
| L_output_valid i pubkey :
    line_is Outputs Progress (msg_output_valid i pubkey)
| L_checking_transactions n :
    line_is Transactions Progress (msg_checking_transactions n)
| L_transaction_missing i :
    line_is Transactions Failure (msg_transaction_missing i)
| L_transaction_has i n :
    line_is Transactions Progress (msg_transaction_has i n)
| L_successful :
    line_is General Success msg_successful
| L_validation_error e :
    line_is General Failure (msg_validation_error e).

Create HintDb lines.
#[local] Hint Constructors line_is : lines.

(** The value of [out.get('tx_pub_key')] for an object. *)
Definition pubkey_of (out : pyobj) : pyobj :=
  match py_get out k_tx_pub_key with
  | Ok p => p
  | Error _ => PNone
  end.

(** The element passes: the loop prints its valid line and goes on. *)
Definition passes_output (out : pyobj) : bool :=
  match py_get out k_tx_pub_key with
  | Ok p =>
      truthy p &&
      match validate_hex p 64 with
      | Ok b => b
      | Error _ => false
      end
  | Error _ => false
  end.

(** The line of an element that passes. *)
Definition valid_line (i : nat) (out : pyobj) : line :=
  msg_output_valid i (pubkey_of out).

(** Runs a loop body whose tests are settled by the hypotheses. *)
Ltac run_body :=
  let before := fresh "before" in
  intros before;
  unfold check_output, check_transaction, bind, eval, print, sys_exit, ret;
  repeat match goal with H : _ = _ |- _ => rewrite H; clear H end;
  cbn [negb]; rewrite ?app_nil_r, <- ?app_assoc; reflexivity.

(** The transaction passes: it can be indexed by [spent_outputs] and the
    value has a length. *)
Definition passes_transaction (tx : pyobj) : bool :=
  match py_getitem tx k_spent_outputs with
  | Ok so => match py_len so with Ok _ => true | Error _ => false end
  | Error _ => false
  end.

(** [len(tx['spent_outputs'])] of a transaction that passes. *)
Definition spent_count (tx : pyobj) : nat :=
  match py_getitem tx k_spent_outputs with
  | Ok so => match py_len so with Ok n => n | Error _ => 0 end
  | Error _ => 0
  end.

(** The line of a transaction that passes. *)
Definition has_line (i : nat) (tx : pyobj) : line :=
  msg_transaction_has i (spent_count tx).

(** Lines that may come before the last line of a failed run. *)
Definition chatter (t : topic) (l : line) : Prop :=
  line_is t Progress l \/ line_is t Detail l.

(** Outcome and lines of a piece of the branch [t]: progress only when it
    returns; when it exits, status 1 and a failure line last. *)
Definition post (t : topic) (o : outcome unit) (ls : list line) : Prop :=
  match o with
  | Ret _ => Forall (line_is t Progress) ls
  | Raise (SystemExit code) =>
      code = 1%Z /\
      exists ls' l, ls = ls' ++ [l] /\ Forall (chatter t) ls' /\ line_is t Failure l
  | Raise (Exception _) => Forall (chatter t) ls
  end.

(** Runs the dispatch up to the loop. *)
Ltac run_dispatch :=
  let before := fresh "before" in
  intros before;
  unfold dispatch, bind, eval, print, ret;
  repeat match goal with H : _ = Ok _ |- _ => rewrite H; clear H
                       | H : _ = Error _ |- _ => rewrite H; clear H end;
  rewrite ?app_nil_r; try reflexivity.


(** How the script ends once the dispatch is over: the success line, or
    the handler's line and [sys.exit(1)]. *)
Definition finish (o : outcome unit) : outcome unit :=
  match o with
  | Raise (Exception _) => Raise (SystemExit 1)
  | other => other
  end.

(** The line the script adds after the dispatch. *)
Definition closing (o : outcome unit) : list line :=
  match o with
  | Ret _ => [msg_successful]
  | Raise (SystemExit _) => []
  | Raise (Exception e) => [msg_validation_error e]
  end.

(** U+D800 .. U+DFFF. *)
Definition is_surrogate (c : codepoint) : bool :=
  N.leb 0xD800 c && N.leb c 0xDFFF.

(** The code points UTF-8 encodes: up to U+10FFFF, surrogates excluded. *)
Definition scalar_value (c : codepoint) : bool :=
  N.ltb c 0x110000 && negb (is_surrogate c).

(** A character of [[0-9a-f]]. *)
Definition lower_hex_char (c : codepoint) : bool :=
  in_class [(chr "0", chr "9"); (chr "a", chr "f")] c.

(** An element of [outputs] as the script wants it: an object whose
    [tx_pub_key] is a string of 64 characters, all of them hex digits, or
    63 hex digits and a final newline (which [$] lets through). *)
Definition accepted_output (out : pyobj) : Prop :=
  exists kvs s,
    out = PDict kvs /\
    dict_get kvs k_tx_pub_key = Some (PStr s) /\
    length s = 64 /\
    (forallb hex_char s = true \/
     exists h, s = h ++ [10%N] /\ forallb hex_char h = true).

(** The values [len] accepts. *)
Definition sized (v : pyobj) : bool :=
  match v with
  | PStr _ | PList _ | PDict _ => true
  | _ => false
  end.

(** An element of [transactions] as the script wants it: an object with the
    key [spent_outputs] and a sized value under it. *)
Definition accepted_transaction (tx : pyobj) : Prop :=
  exists kvs so,
    tx = PDict kvs /\
    dict_get kvs k_spent_outputs = Some so /\
    sized so = true.

(** Printable ASCII and control characters: one byte each in UTF-8. *)
Definition is_ascii (c : codepoint) : bool := N.ltb c 0x80.

(* ================================================================== *)
(** * Properties *)

(** ** The hex predicate *)

Lemma hex_char_iff (c : codepoint) :
  hex_char c = true <->
  (48 <= c <= 57 \/ 97 <= c <= 102 \/ 65 <= c <= 70)%N.
Proof.
  unfold hex_char, in_class, hex_ranges, chr; simpl.
  rewrite !orb_true_iff, !andb_true_iff, !N.leb_le.
  intuition discriminate.
Qed.

Lemma newline_not_hex : hex_char 10%N = false.
Proof. reflexivity. Qed.

(** The part of the pattern after [^]: a non-empty run of hex digits, and
    then the end of the string or its final newline. *)
Lemma plus_then_dollar_iff (s : pystr) :
  plus_then hex_ranges (re_from [Dollar] false) s = true <->
  s <> [] /\
  (forallb hex_char s = true \/
   exists h, s = h ++ [10%N] /\ h <> [] /\ forallb hex_char h = true).
Proof.
  induction s as [|c s IH].
  - simpl. split; [discriminate | intros [H _]; congruence].
  - cbn [plus_then forallb]. fold (hex_char c).
    rewrite andb_true_iff, orb_true_iff, IH. clear IH.
    split.
    + intros [Hc [[Hs H] | H]].
      * split; [discriminate|].
        destruct H as [H | (h & -> & Hh & Hall)].
        -- left. now rewrite Hc.
        -- right. exists (c :: h). simpl. rewrite Hc.
           repeat split; auto; discriminate.
      * split; [discriminate|].
        destruct s as [|d [|e s]]; simpl in H; try discriminate.
        -- left. now rewrite Hc.
        -- rewrite andb_true_r in H. apply N.eqb_eq in H as ->.
           right. exists [c]. simpl. rewrite Hc.
           repeat split; auto; discriminate.
    + intros [_ [H | (h & E & Hh & Hall)]].
      * apply andb_true_iff in H as [Hc Hs]. split; [exact Hc|].
        destruct s as [|d s]; [right; reflexivity|].
        left. split; [discriminate | left; exact Hs].
      * destruct h as [|c' h]; [congruence|].
        simpl in E. injection E as <- ->.
        simpl in Hall. apply andb_true_iff in Hall as [Hc Hall].
        split; [exact Hc|].
        destruct h as [|d h]; [right; reflexivity|].
        left. split; [destruct h; discriminate|].
        right. exists (d :: h). repeat split; auto; discriminate.
Qed.

Lemma re_from_hex_pattern (s : pystr) :
  re_from hex_pattern true s =
  plus_then hex_ranges (re_from [Dollar] false) s.
Proof. reflexivity. Qed.

(** What [validate_hex(s, length)] computes on a [str]. *)
Lemma validate_hex_str_true_iff (s : pystr) (n : nat) :
  validate_hex (PStr s) n = Ok true <->
  length s = n /\ s <> [] /\
  (forallb hex_char s = true \/
   exists h, s = h ++ [10%N] /\ h <> [] /\ forallb hex_char h = true).
Proof.
  unfold validate_hex. cbn [py_len rbind].
  destruct (Nat.eqb_spec (length s) n) as [E | E]; cbn [negb re_match].
  - rewrite re_from_hex_pattern, <- plus_then_dollar_iff.
    split.
    + intros H. split; [exact E|]. now injection H.
    + intros [_ H]. now rewrite H.
  - split; [discriminate | tauto].
Qed.

Lemma validate_hex_str_total (s : pystr) (n : nat) :
  exists b, validate_hex (PStr s) n = Ok b.
Proof.
  unfold validate_hex. simpl.
  destruct (Nat.eqb (length s) n); simpl; eauto.
Qed.

(** A string of [n] hex digits, [n] positive, is accepted. *)
Lemma validate_hex_accepts_hex (s : pystr) (n : nat) :
  length s = n -> n <> 0 -> forallb hex_char s = true ->
  validate_hex (PStr s) n = Ok true.
Proof.
  intros Hl Hn Hall. apply validate_hex_str_true_iff.
  repeat split; auto. destruct s; simpl in *; congruence.
Qed.

(** A string of any other length is rejected. *)
Lemma validate_hex_rejects_length (s : pystr) (n : nat) :
  length s <> n -> validate_hex (PStr s) n = Ok false.
Proof.
  intros H. unfold validate_hex. simpl.
  destruct (Nat.eqb_spec (length s) n); [contradiction | reflexivity].
Qed.

(** A string with a character outside [[0-9a-fA-F]] is rejected, unless that
    character is a newline in the last position. *)
Lemma validate_hex_rejects_non_hex (s : pystr) (n : nat) :
  forallb hex_char s = false ->
  (forall h, s = h ++ [10%N] -> forallb hex_char h = false) ->
  validate_hex (PStr s) n = Ok false.
Proof.
  intros Hs Hh.
  destruct (validate_hex_str_total s n) as [[|] E]; [|exact E].
  apply validate_hex_str_true_iff in E as (_ & _ & [H | (h & E & _ & H)]).
  - congruence.
  - rewrite (Hh h E) in H. discriminate.
Qed.

(** C1. [validate_hex(s, 64)] is meant to accept exactly the strings of 64
    hexadecimal digits; on the 64-character string made of 63 digits [a]
    followed by a newline it returns [True], although the newline is not in
    [[0-9a-fA-F]]: the [$] of the pattern also matches just before a newline
    that ends the string. *)
Theorem validate_hex_accepts_trailing_newline :
  let s := repeat (chr "a") 63 ++ [10%N] in
  length s = 64 /\
  existsb (fun c => negb (hex_char c)) s = true /\
  validate_hex (PStr s) 64 = Ok true /\
  run (Ok (PDict [(k_outputs, PList [PDict [(k_tx_pub_key, PStr s)]])])) =
  ([[Lit "Checking "; FInt 1; Lit " outputs..."];
    [Lit "Output "; FInt 0; Lit " tx_pub_key valid: "; FObj (PStr s)];
    [Lit "Validation Successful"]], 0%Z).
Proof. vm_compute. auto. Qed.

(* ================================================================== *)
(** ** What a statement prints *)

Lemma emits_functional {A} (m : M A) o1 ls1 o2 ls2 :
  emits m o1 ls1 -> emits m o2 ls2 -> o1 = o2 /\ ls1 = ls2.
Proof.
  intros H1 H2. specialize (H1 []). specialize (H2 []).
  rewrite H1 in H2. now injection H2.
Qed.

Lemma emits_ret {A} (a : A) : emits (ret a) (Ret a) [].
Proof. intros out. unfold ret. now rewrite app_nil_r. Qed.

Lemma emits_print (l : line) : emits (print l) (Ret tt) [l].
Proof. intros out. reflexivity. Qed.

Lemma emits_sys_exit {A} (code : Z) :
  emits (@sys_exit A code) (Raise (SystemExit code)) [].
Proof. intros out. unfold sys_exit. now rewrite app_nil_r. Qed.

Lemma emits_eval_ok {A} (a : A) : emits (eval (Ok a)) (Ret a) [].
Proof. intros out. unfold eval. now rewrite app_nil_r. Qed.

Lemma emits_eval_error {A} (e : exn) :
  emits (@eval A (Error e)) (Raise (Exception e)) [].
Proof. intros out. unfold eval. now rewrite app_nil_r. Qed.

Lemma emits_bind {A B} {m : M A} {k : A -> M B} {a ls1 o ls2} :
  emits m (Ret a) ls1 -> emits (k a) o ls2 ->
  emits (bind m k) o (ls1 ++ ls2).
Proof.
  intros H1 H2 out. unfold bind. rewrite H1, H2. now rewrite app_assoc.
Qed.

Lemma emits_bind_raise {A B} {m : M A} {k : A -> M B} {r ls} :
  emits m (Raise r) ls -> emits (bind m k) (Raise r) ls.
Proof. intros H out. unfold bind. now rewrite H. Qed.

Lemma emits_bind_eval {A B} (r : result A) (k : A -> M B) a o ls :
  r = Ok a -> emits (k a) o ls -> emits (bind (eval r) k) o ls.
Proof. intros -> H. exact (emits_bind (emits_eval_ok a) H). Qed.

Lemma emits_bind_eval_error {A B} (r : result A) (k : A -> M B) e :
  r = Error e -> emits (bind (eval r) k) (Raise (Exception e)) [].
Proof. intros ->. apply emits_bind_raise, emits_eval_error. Qed.

Lemma emits_bind_print {B} (l : line) (k : unit -> M B) o ls :
  emits (k tt) o ls -> emits (bind (print l) k) o (l :: ls).
Proof. intros H. exact (emits_bind (emits_print l) H). Qed.

Lemma emits_try_ret body handler ls :
  emits body (Ret tt) ls -> emits (try_except body handler) (Ret tt) ls.
Proof. intros H out. unfold try_except. now rewrite H. Qed.

Lemma emits_try_exit body handler code ls :
  emits body (Raise (SystemExit code)) ls ->
  emits (try_except body handler) (Raise (SystemExit code)) ls.
Proof. intros H out. unfold try_except. now rewrite H. Qed.

Lemma emits_try_caught body handler e ls1 o ls2 :
  emits body (Raise (Exception e)) ls1 -> emits (handler e) o ls2 ->
  emits (try_except body handler) o (ls1 ++ ls2).
Proof.
  intros H1 H2 out. unfold try_except. rewrite H1, H2. now rewrite app_assoc.
Qed.

(** The loop: an element whose body returns lets the loop go on; the first
    element whose body raises ends it. *)
Lemma emits_for_nil body i : emits (for_enumerate body i []) (Ret tt) [].
Proof. apply emits_ret. Qed.

Lemma emits_for_cons body i x xs ls1 o ls2 :
  emits (body i x) (Ret tt) ls1 ->
  emits (for_enumerate body (S i) xs) o ls2 ->
  emits (for_enumerate body i (x :: xs)) o (ls1 ++ ls2).
Proof. intros H1 H2. exact (emits_bind H1 H2). Qed.

Lemma emits_for_raise body i x xs r ls :
  emits (body i x) (Raise r) ls ->
  emits (for_enumerate body i (x :: xs)) (Raise r) ls.
Proof. intros H. exact (emits_bind_raise H). Qed.

Lemma lines_from_length line_of i xs :
  length (lines_from line_of i xs) = length xs.
Proof. revert i. induction xs; intros; simpl; auto. Qed.

Lemma emits_for_app body line_of (passes : pyobj -> bool) :
  (forall i x, passes x = true -> emits (body i x) (Ret tt) [line_of i x]) ->
  forall pre i rest o ls,
    forallb passes pre = true ->
    emits (for_enumerate body (i + length pre) rest) o ls ->
    emits (for_enumerate body i (pre ++ rest)) o (lines_from line_of i pre ++ ls).
Proof.
  intros Hbody. induction pre as [|x pre IH]; intros i rest o ls Hpre H.
  - simpl in *. now rewrite Nat.add_0_r in H.
  - simpl in Hpre. apply andb_true_iff in Hpre as [Hx Hpre].
    change ((x :: pre) ++ rest) with (x :: (pre ++ rest)).
    change (lines_from line_of i (x :: pre) ++ ls)
      with ([line_of i x] ++ (lines_from line_of (S i) pre ++ ls)).
    apply emits_for_cons; [now apply Hbody|].
    apply IH; [exact Hpre|].
    simpl in H. now rewrite Nat.add_succ_r in H.
Qed.

(* ================================================================== *)
(** ** The lines of the script *)


(* ================================================================== *)
(** ** One element of [outputs] *)

Lemma check_output_not_object i out e :
  py_get out k_tx_pub_key = Error e ->
  emits (check_output i out) (Raise (Exception e)) [].
Proof. intros H. run_body. Qed.

Lemma check_output_missing i out p :
  py_get out k_tx_pub_key = Ok p -> truthy p = false ->
  emits (check_output i out) (Raise (SystemExit 1)) [msg_output_missing i].
Proof. intros H1 H2. run_body. Qed.

Lemma check_output_predicate_raises i out p e :
  py_get out k_tx_pub_key = Ok p -> truthy p = true ->
  validate_hex p 64 = Error e ->
  emits (check_output i out) (Raise (Exception e)) [].
Proof. intros H1 H2 H3. run_body. Qed.

Lemma check_output_valid i out p :
  py_get out k_tx_pub_key = Ok p -> truthy p = true ->
  validate_hex p 64 = Ok true ->
  emits (check_output i out) (Ret tt) [msg_output_valid i p].
Proof. intros H1 H2 H3. run_body. Qed.

Lemma check_output_invalid i out p n bs :
  py_get out k_tx_pub_key = Ok p -> truthy p = true ->
  validate_hex p 64 = Ok false ->
  py_len p = Ok n -> py_encode_utf8 p = Ok bs ->
  emits (check_output i out) (Raise (SystemExit 1))
        [msg_output_invalid i p n; msg_hex_repr (bytes_hex bs)].
Proof. intros H1 H2 H3 H4 H5. run_body. Qed.

Lemma check_output_invalid_no_dump i out p n e :
  py_get out k_tx_pub_key = Ok p -> truthy p = true ->
  validate_hex p 64 = Ok false ->
  py_len p = Ok n -> py_encode_utf8 p = Error e ->
  emits (check_output i out) (Raise (Exception e)) [msg_output_invalid i p n].
Proof. intros H1 H2 H3 H4 H5. run_body. Qed.

Lemma check_output_len_raises i out p e :
  py_get out k_tx_pub_key = Ok p -> truthy p = true ->
  validate_hex p 64 = Ok false -> py_len p = Error e ->
  emits (check_output i out) (Raise (Exception e)) [].
Proof. intros H1 H2 H3 H4. run_body. Qed.

Lemma check_output_passes i out :
  passes_output out = true ->
  emits (check_output i out) (Ret tt) [valid_line i out].
Proof.
  unfold passes_output, valid_line, pubkey_of.
  destruct (py_get out k_tx_pub_key) as [p|e] eqn:Hp; [|discriminate].
  intros H. apply andb_true_iff in H as [Ht Hv].
  destruct (validate_hex p 64) as [[|]|e] eqn:Hh; try discriminate.
  now apply check_output_valid.
Qed.

(* ================================================================== *)
(** ** One element of [transactions] *)

Lemma getitem_contains v k x :
  py_getitem v k = Ok x -> py_contains k v = Ok true.
Proof.
  destruct v; simpl; try discriminate.
  destruct (dict_get kvs k); [reflexivity | discriminate].
Qed.

Lemma check_transaction_raises i tx e :
  py_contains k_spent_outputs tx = Error e ->
  emits (check_transaction i tx) (Raise (Exception e)) [].
Proof. intros H. run_body. Qed.

Lemma check_transaction_missing i tx :
  py_contains k_spent_outputs tx = Ok false ->
  emits (check_transaction i tx) (Raise (SystemExit 1))
        [msg_transaction_missing i].
Proof. intros H. run_body. Qed.

Lemma check_transaction_bad_index i tx e :
  py_contains k_spent_outputs tx = Ok true ->
  py_getitem tx k_spent_outputs = Error e ->
  emits (check_transaction i tx) (Raise (Exception e)) [].
Proof. intros H1 H2. run_body. Qed.

Lemma check_transaction_unsized i tx so e :
  py_contains k_spent_outputs tx = Ok true ->
  py_getitem tx k_spent_outputs = Ok so -> py_len so = Error e ->
  emits (check_transaction i tx) (Raise (Exception e)) [].
Proof. intros H1 H2 H3. run_body. Qed.

Lemma check_transaction_has i tx so n :
  py_getitem tx k_spent_outputs = Ok so -> py_len so = Ok n ->
  emits (check_transaction i tx) (Ret tt) [msg_transaction_has i n].
Proof.
  intros H2 H3. pose proof (getitem_contains _ _ _ H2) as H1. run_body.
Qed.

Lemma check_transaction_passes i tx :
  passes_transaction tx = true ->
  emits (check_transaction i tx) (Ret tt) [has_line i tx].
Proof.
  unfold passes_transaction, has_line, spent_count.
  destruct (py_getitem tx k_spent_outputs) as [so|e] eqn:Hg; [|discriminate].
  destruct (py_len so) as [n|e] eqn:Hl; [|discriminate].
  intros _. now apply check_transaction_has with so.
Qed.

(* ================================================================== *)
(** ** What a branch of the script can print *)

Lemma progress_chatter t ls :
  Forall (line_is t Progress) ls -> Forall (chatter t) ls.
Proof. apply Forall_impl. intros l H. now left. Qed.

Lemma post_prepend t ls1 o ls2 :
  Forall (line_is t Progress) ls1 -> post t o ls2 -> post t o (ls1 ++ ls2).
Proof.
  intros H1. destruct o as [[]|[code|e]]; simpl.
  - intros H2. apply Forall_app. now split.
  - intros (-> & ls' & l & -> & H2 & Hl). split; [reflexivity|].
    exists (ls1 ++ ls'), l. rewrite app_assoc. repeat split; auto.
    apply Forall_app. split; [now apply progress_chatter | exact H2].
  - intros H2. apply Forall_app. split; [now apply progress_chatter | exact H2].
Qed.

Lemma for_enumerate_post t body :
  (forall i x, exists o ls, emits (body i x) o ls /\ post t o ls) ->
  forall xs i, exists o ls, emits (for_enumerate body i xs) o ls /\ post t o ls.
Proof.
  intros Hbody. induction xs as [|x xs IH]; intros i.
  - exists (Ret tt), []. split; [apply emits_for_nil | constructor].
  - destruct (Hbody i x) as (o1 & ls1 & E1 & P1).
    destruct o1 as [[]|r].
    + destruct (IH (S i)) as (o2 & ls2 & E2 & P2).
      exists o2, (ls1 ++ ls2). split.
      * now apply emits_for_cons.
      * now apply post_prepend.
    + exists (Raise r), ls1. split; [now apply emits_for_raise | exact P1].
Qed.

Lemma validate_hex_len p n b :
  validate_hex p n = Ok b -> exists m, py_len p = Ok m.
Proof.
  unfold validate_hex. destruct (py_len p) as [m|e]; simpl.
  - eauto.
  - discriminate.
Qed.

Lemma check_output_post i out :
  exists o ls, emits (check_output i out) o ls /\ post Outputs o ls.
Proof.
  destruct (py_get out k_tx_pub_key) as [p|e] eqn:Hp.
  2:{ exists (Raise (Exception e)), []. split.
      - now apply check_output_not_object.
      - constructor. }
  destruct (truthy p) eqn:Ht.
  2:{ exists (Raise (SystemExit 1)), [msg_output_missing i]. split.
      - now apply check_output_missing with p.
      - split; [reflexivity|]. exists [], (msg_output_missing i).
        repeat split; auto with lines. }
  destruct (validate_hex p 64) as [[|]|e] eqn:Hv.
  - exists (Ret tt), [msg_output_valid i p]. split.
    + now apply check_output_valid.
    + repeat constructor.
  - destruct (validate_hex_len _ _ _ Hv) as [n Hn].
    destruct (py_encode_utf8 p) as [bs|e] eqn:He.
    + exists (Raise (SystemExit 1)),
        [msg_output_invalid i p n; msg_hex_repr (bytes_hex bs)].
      split; [now apply check_output_invalid|].
      split; [reflexivity|].
      exists [msg_output_invalid i p n], (msg_hex_repr (bytes_hex bs)).
      repeat split; auto with lines.
      constructor; [right; auto with lines | constructor].
    + exists (Raise (Exception e)), [msg_output_invalid i p n].
      split; [now apply check_output_invalid_no_dump|].
      constructor; [right; auto with lines | constructor].
  - exists (Raise (Exception e)), []. split.
    + now apply check_output_predicate_raises with p.
    + constructor.
Qed.

Lemma check_transaction_post i tx :
  exists o ls, emits (check_transaction i tx) o ls /\ post Transactions o ls.
Proof.
  destruct (py_contains k_spent_outputs tx) as [[|]|e] eqn:Hc.
  - destruct (py_getitem tx k_spent_outputs) as [so|e] eqn:Hg.
    + destruct (py_len so) as [n|e] eqn:Hl.
      * exists (Ret tt), [msg_transaction_has i n]. split.
        -- now apply check_transaction_has with so.
        -- repeat constructor.
      * exists (Raise (Exception e)), []. split.
        -- now apply check_transaction_unsized with so.
        -- constructor.
    + exists (Raise (Exception e)), []. split.
      * now apply check_transaction_bad_index.
      * constructor.
  - exists (Raise (SystemExit 1)), [msg_transaction_missing i]. split.
    + now apply check_transaction_missing.
    + split; [reflexivity|]. exists [], (msg_transaction_missing i).
      repeat split; auto with lines.
  - exists (Raise (Exception e)), []. split.
    + now apply check_transaction_raises.
    + constructor.
Qed.

(* ================================================================== *)
(** ** The dispatch and the whole script *)

Lemma dispatch_outputs data outs n xs o ls :
  py_contains k_outputs data = Ok true ->
  py_getitem data k_outputs = Ok outs ->
  py_len outs = Ok n -> py_iter outs = Ok xs ->
  emits (for_enumerate check_output 0 xs) o ls ->
  emits (dispatch data) o (msg_checking_outputs n :: ls).
Proof.
  intros H1 H2 H3 H4 H. run_dispatch.
  rewrite H. now rewrite <- app_assoc.
Qed.

Lemma dispatch_transactions data txs n xs o ls :
  py_contains k_outputs data = Ok false ->
  py_contains k_transactions data = Ok true ->
  py_getitem data k_transactions = Ok txs ->
  py_len txs = Ok n -> py_iter txs = Ok xs ->
  emits (for_enumerate check_transaction 0 xs) o ls ->
  emits (dispatch data) o (msg_checking_transactions n :: ls).
Proof.
  intros H0 H1 H2 H3 H4 H. run_dispatch.
  rewrite H. now rewrite <- app_assoc.
Qed.

Lemma dispatch_neither data :
  py_contains k_outputs data = Ok false ->
  py_contains k_transactions data = Ok false ->
  emits (dispatch data) (Ret tt) [].
Proof. intros H0 H1. run_dispatch. Qed.


Lemma dispatch_outputs_bad_index data e :
  py_contains k_outputs data = Ok true ->
  py_getitem data k_outputs = Error e ->
  emits (dispatch data) (Raise (Exception e)) [].
Proof. intros H1 H2. run_dispatch. Qed.

Lemma dispatch_outputs_unsized data outs e :
  py_contains k_outputs data = Ok true ->
  py_getitem data k_outputs = Ok outs -> py_len outs = Error e ->
  emits (dispatch data) (Raise (Exception e)) [].
Proof. intros H1 H2 H3. run_dispatch. Qed.

Lemma dispatch_transactions_bad_index data e :
  py_contains k_outputs data = Ok false ->
  py_contains k_transactions data = Ok true ->
  py_getitem data k_transactions = Error e ->
  emits (dispatch data) (Raise (Exception e)) [].
Proof. intros H0 H1 H2. run_dispatch. Qed.





Lemma script_of_dispatch data o ls :
  emits (dispatch data) o ls ->
  emits (script (Ok data)) (finish o) (ls ++ closing o).
Proof.
  intros H before.
  unfold script, try_except, bind, eval, print, sys_exit. rewrite H.
  destruct o as [[]|[code|e]]; simpl.
  - now rewrite app_assoc.
  - now rewrite app_nil_r.
  - now rewrite app_assoc.
Qed.

Lemma script_load_raised e :
  emits (script (Error e)) (Raise (SystemExit 1)) [msg_validation_error e].
Proof. intros before. reflexivity. Qed.

Lemma run_of_emits loaded o ls :
  emits (script loaded) o ls -> run loaded = (ls, exit_status o).
Proof. intros H. unfold run. now rewrite (H []). Qed.

Lemma run_of_dispatch data o ls :
  emits (dispatch data) o ls ->
  run (Ok data) = (ls ++ closing o, exit_status (finish o)).
Proof. intros H. apply run_of_emits, script_of_dispatch, H. Qed.

(* ================================================================== *)
(** * The claims *)

(** ** Runs on documents *)

Lemma dict_contains d k v :
  dict_get d k = Some v -> py_contains k (PDict d) = Ok true.
Proof. intros H. simpl. now rewrite H. Qed.

Lemma dict_getitem d k v :
  dict_get d k = Some v -> py_getitem (PDict d) k = Ok v.
Proof. intros H. simpl. now rewrite H. Qed.

Lemma dict_lacks d k :
  dict_get d k = None -> py_contains k (PDict d) = Ok false.
Proof. intros H. simpl. now rewrite H. Qed.

(** The run on a document whose [outputs] is a list, from what the loop
    does. *)
Lemma run_outputs d xs o ls :
  dict_get d k_outputs = Some (PList xs) ->
  emits (for_enumerate check_output 0 xs) o ls ->
  run (Ok (PDict d)) =
  (msg_checking_outputs (length xs) :: ls ++ closing o,
   exit_status (finish o)).
Proof.
  intros Hd H.
  apply (run_of_dispatch (PDict d) o (msg_checking_outputs (length xs) :: ls)).
  apply dispatch_outputs with (PList xs) xs; auto.
  - now apply dict_contains with (PList xs).
  - now apply dict_getitem.
Qed.

Lemma run_transactions d xs o ls :
  dict_get d k_outputs = None ->
  dict_get d k_transactions = Some (PList xs) ->
  emits (for_enumerate check_transaction 0 xs) o ls ->
  run (Ok (PDict d)) =
  (msg_checking_transactions (length xs) :: ls ++ closing o,
   exit_status (finish o)).
Proof.
  intros Hn Hd H.
  apply (run_of_dispatch (PDict d) o
           (msg_checking_transactions (length xs) :: ls)).
  apply dispatch_transactions with (PList xs) xs; auto.
  - now apply dict_lacks.
  - now apply dict_contains with (PList xs).
  - now apply dict_getitem.
Qed.



(** ** Parse errors, documents that are not objects, exit status *)


(** C10. A document that is a bare number (or [null], or a boolean) makes
    the membership test raise, and the array [["outputs"]] passes the
    membership test but cannot be indexed by a key: these runs end in the
    handler, exit status 1, although none of the documents is an object with
    a recognized key. *)
Theorem non_object_document_fails :
  (forall n, run (Ok (PInt n)) =
             ([[Lit "Validation Error: ";
                FExn (TypeError (NotContainer TInt))]], 1%Z)) /\
  (forall f, run (Ok (PFloat f)) =
             ([[Lit "Validation Error: ";
                FExn (TypeError (NotContainer TFloat))]], 1%Z)) /\
  (forall b, run (Ok (PBool b)) =
             ([[Lit "Validation Error: ";
                FExn (TypeError (NotContainer TBool))]], 1%Z)) /\
  run (Ok PNone) =
  ([[Lit "Validation Error: "; FExn (TypeError (NotContainer TNone))]], 1%Z) /\
  py_contains k_outputs (PList [PStr k_outputs]) = Ok true /\
  run (Ok (PList [PStr k_outputs])) =
  ([[Lit "Validation Error: "; FExn (TypeError (BadIndex TList))]], 1%Z).
Proof. repeat split. Qed.



(** ** Precedence of [outputs] *)






(** ** The loop over [outputs] *)

(** The field is absent, empty or otherwise falsy. *)
Lemma falsy_pubkey_iff out :
  (exists p, py_get out k_tx_pub_key = Ok p /\ truthy p = false) <->
  exists kvs, out = PDict kvs /\
    (dict_get kvs k_tx_pub_key = None \/
     exists v, dict_get kvs k_tx_pub_key = Some v /\
       (v = PNone \/ v = PBool false \/ v = PInt 0 \/
        (exists sign, v = PFloat (S754_zero sign)) \/
        v = PStr [] \/ v = PList [] \/ v = PDict [])).
Proof.
  split.
  - intros (p & Hp & Ht). destruct out; try discriminate.
    exists kvs. split; [reflexivity|]. simpl in Hp.
    destruct (dict_get kvs k_tx_pub_key) as [v|]; [|now left].
    right. exists v. split; [reflexivity|]. injection Hp as ->.
    destruct p as [|[|]|n|f|s|xs|kvs']; simpl in Ht; try discriminate; auto.
    + apply negb_false_iff, Z.eqb_eq in Ht. subst. auto.
    + destruct f; try discriminate. right. right. right. left. now exists s.
    + destruct s; try discriminate. auto 10.
    + destruct xs; try discriminate. auto 10.
    + destruct kvs'; try discriminate. auto 10.
  - intros (kvs & -> & [H | (v & H & Hv)]); simpl; rewrite H.
    + now exists PNone.
    + exists v. split; [reflexivity|].
      destruct Hv as [->|[->|[->|[[sign ->]|[->|[->| ->]]]]]]; reflexivity.
Qed.

Lemma non_object_get out :
  type_of out <> TDict ->
  py_get out k_tx_pub_key = Error (AttributeError (type_of out) "get").
Proof. destruct out; simpl; congruence. Qed.

(** C5. The first element of [outputs] whose [tx_pub_key] is absent, empty
    or otherwise falsy ends the run: after the lines of the elements before
    it, the missing-field line with its 0-based index is the last line, the
    exit status is 1, and nothing is printed for the elements after it,
    whatever they are. *)
Theorem missing_tx_pub_key_stops_run :
  forall d pre out rest p,
    dict_get d k_outputs = Some (PList (pre ++ out :: rest)) ->
    forallb passes_output pre = true ->
    py_get out k_tx_pub_key = Ok p ->
    truthy p = false ->
    run (Ok (PDict d)) =
    (msg_checking_outputs (length (pre ++ out :: rest))
       :: lines_from valid_line 0 pre
       ++ [[Lit "Error: Output "; FInt (length pre); Lit " missing tx_pub_key"]],
     1%Z).
Proof.
  intros d pre out rest p Hd Hpre Hp Ht.
  assert (E : emits (for_enumerate check_output 0 (pre ++ out :: rest))
                    (Raise (SystemExit 1))
                    (lines_from valid_line 0 pre
                       ++ [msg_output_missing (length pre)])).
  { apply emits_for_app with passes_output; auto using check_output_passes.
    apply emits_for_raise. now apply check_output_missing with p. }
  rewrite (run_outputs _ _ _ _ Hd E). cbn [closing finish exit_status].
  now rewrite app_nil_r.
Qed.

Lemma missing_tx_pub_key_stops_run_witness :
  run (Ok (PDict [(k_outputs, PList [PDict []; PInt 3])])) =
  ([msg_checking_outputs 2; msg_output_missing 0], 1%Z).
Proof.
  apply (missing_tx_pub_key_stops_run
           [(k_outputs, PList [PDict []; PInt 3])] [] (PDict []) [PInt 3] PNone);
    reflexivity.
Defined.

Lemma loop_meets_non_object xs :
  forall i o ls,
    Exists (fun x => type_of x <> TDict) xs ->
    emits (for_enumerate check_output i xs) o ls ->
    exit_status (finish o) = 1%Z.
Proof.
  induction xs as [|x xs IH]; intros i o ls Hex E.
  - inversion Hex.
  - destruct (check_output_post i x) as (o1 & ls1 & E1 & P1).
    destruct o1 as [[]|r].
    + destruct (for_enumerate_post Outputs _ check_output_post xs (S i))
        as (o2 & ls2 & E2 & _).
      destruct (emits_functional _ _ _ _ _ E (emits_for_cons _ _ _ _ _ _ _ E1 E2))
        as [-> _].
      apply IH with (S i) ls2; [|exact E2].
      inversion Hex as [? ? Hx | ? ? Hxs]; subst; [|exact Hxs].
      pose proof (check_output_not_object i x _ (non_object_get _ Hx)) as E'.
      destruct (emits_functional _ _ _ _ _ E1 E'). discriminate.
    + destruct (emits_functional _ _ _ _ _ E (emits_for_raise _ _ _ xs _ _ E1))
        as [-> _].
      destruct r as [code|e]; [|reflexivity].
      simpl in P1. now destruct P1 as [-> _].
Qed.

(** C9. An element of [outputs] that is not an object makes the run exit
    with status 1; when the elements before it pass, [.get] raises on it
    and the last line is the handler's generic line, with no missing-field
    or invalid-field line for its index. *)
Theorem non_object_output_generic_error :
  forall d pre out rest,
    dict_get d k_outputs = Some (PList (pre ++ out :: rest)) ->
    type_of out <> TDict ->
    snd (run (Ok (PDict d))) = 1%Z /\
    (forallb passes_output pre = true ->
     run (Ok (PDict d)) =
     (msg_checking_outputs (length (pre ++ out :: rest))
        :: lines_from valid_line 0 pre
        ++ [[Lit "Validation Error: ";
             FExn (AttributeError (type_of out) "get")]],
      1%Z)).
Proof.
  intros d pre out rest Hd Hout. split.
  - destruct (for_enumerate_post Outputs _ check_output_post
                (pre ++ out :: rest) 0) as (o & ls & E & _).
    rewrite (run_outputs _ _ _ _ Hd E). cbn [snd].
    apply loop_meets_non_object with (pre ++ out :: rest) 0 ls; [|exact E].
    apply Exists_app. right. now constructor.
  - intros Hpre.
    assert (E : emits (for_enumerate check_output 0 (pre ++ out :: rest))
                      (Raise (Exception (AttributeError (type_of out) "get")))
                      (lines_from valid_line 0 pre ++ [])).
    { apply emits_for_app with passes_output; auto using check_output_passes.
      apply emits_for_raise.
      now apply check_output_not_object, non_object_get. }
    rewrite (run_outputs _ _ _ _ Hd E). cbn [closing finish exit_status].
    now rewrite app_nil_r.
Qed.

Lemma non_object_output_generic_error_witness :
  run (Ok (PDict [(k_outputs, PList [PStr (str_of "abc")])])) =
  ([msg_checking_outputs 1;
    msg_validation_error (AttributeError TStr "get")], 1%Z).
Proof.
  apply (non_object_output_generic_error
           [(k_outputs, PList [PStr (str_of "abc")])] []
           (PStr (str_of "abc")) []); [reflexivity | discriminate | reflexivity].
Defined.

(** ** The hex dump *)

Lemma utf8_char_none_iff c : utf8_char c = None <-> is_surrogate c = true.
Proof.
  unfold utf8_char, is_surrogate.
  destruct (N.ltb_spec c 0x80); [|destruct (N.ltb_spec c 0x800)].
  - split; [discriminate|]. rewrite andb_true_iff, !N.leb_le. lia.
  - split; [discriminate|]. rewrite andb_true_iff, !N.leb_le. lia.
  - destruct (N.leb 0xD800 c && N.leb c 0xDFFF).
    + tauto.
    + destruct (N.ltb c 0x10000); split; discriminate.
Qed.

Lemma utf8_from_ok s :
  forallb scalar_value s = true ->
  forall pos, exists bs, utf8_from pos s = Ok bs.
Proof.
  induction s as [|c s IH]; intros H pos; simpl.
  - now exists [].
  - simpl in H. apply andb_true_iff in H as [Hc Hs].
    unfold scalar_value in Hc. apply andb_true_iff in Hc as [_ Hc].
    destruct (utf8_char c) as [bs|] eqn:E.
    + destruct (IH Hs (S pos)) as [rest ->]. simpl. eauto.
    + apply utf8_char_none_iff in E. rewrite E in Hc. discriminate.
Qed.

Lemma lor_below_256 a b : (a < 256 -> b < 256 -> N.lor a b < 256)%N.
Proof.
  intros Ha Hb.
  destruct (N.eq_dec (N.lor a b) 0) as [E | E]; [rewrite E; reflexivity|].
  change 256%N with (2 ^ 8)%N.
  apply N.log2_lt_pow2; [lia|].
  rewrite N.log2_lor.
  apply N.max_lub_lt.
  - destruct (N.eq_dec a 0) as [-> | Na]; [reflexivity|].
    apply N.log2_lt_pow2; [lia | exact Ha].
  - destruct (N.eq_dec b 0) as [-> | Nb]; [reflexivity|].
    apply N.log2_lt_pow2; [lia | exact Hb].
Qed.

Lemma continuation_byte x : (N.lor 0x80 (N.land x 0x3F) < 256)%N.
Proof.
  apply lor_below_256; [reflexivity|].
  change 0x3F%N with (N.ones 6). rewrite N.land_ones.
  pose proof (N.mod_upper_bound x (2 ^ 6)) as H.
  simpl in H. lia.
Qed.

Lemma leading_byte tag c k bound :
  (tag < 256 -> c < bound * 2 ^ k -> bound <= 256 ->
   N.lor tag (N.shiftr c k) < 256)%N.
Proof.
  intros Ht Hc Hb. apply lor_below_256; [exact Ht|].
  rewrite N.shiftr_div_pow2.
  assert (c / 2 ^ k < bound)%N; [|lia].
  apply N.Div0.div_lt_upper_bound. lia.
Qed.

(** The encoder produces bytes. *)
Lemma utf8_char_bytes c bs :
  (c < 0x110000)%N -> utf8_char c = Some bs ->
  Forall (fun b => (b < 256)%N) bs.
Proof.
  intros Hc. unfold utf8_char.
  destruct (N.ltb_spec c 0x80); [|destruct (N.ltb_spec c 0x800);
    [|destruct (N.leb 0xD800 c && N.leb c 0xDFFF);
      [|destruct (N.ltb_spec c 0x10000)]]];
    intros E; try discriminate;
    match type of E with Some ?x = _ =>
      assert (E' : bs = x) by congruence; rewrite E'; clear E E'
    end;
    repeat match goal with
           | |- Forall _ (_ :: _) => apply Forall_cons
           | |- Forall _ [] => apply Forall_nil
           end;
    try apply continuation_byte.
  - lia.
  - apply leading_byte with 32%N; [reflexivity | | discriminate].
    change (2 ^ 6)%N with 64%N. lia.
  - apply leading_byte with 16%N; [reflexivity | | discriminate].
    change (2 ^ 12)%N with 4096%N. lia.
  - apply leading_byte with 8%N; [reflexivity | | discriminate].
    change (2 ^ 18)%N with 262144%N. lia.
Qed.

Lemma utf8_from_bytes s :
  forallb scalar_value s = true ->
  forall pos bs, utf8_from pos s = Ok bs -> Forall (fun b => (b < 256)%N) bs.
Proof.
  induction s as [|c s IH]; intros H pos bs; simpl.
  - intros E. injection E as <-. constructor.
  - simpl in H. apply andb_true_iff in H as [Hc Hs].
    unfold scalar_value in Hc. apply andb_true_iff in Hc as [Hc _].
    apply N.ltb_lt in Hc.
    destruct (utf8_char c) as [cs|] eqn:E; [|discriminate].
    destruct (utf8_from (S pos) s) as [rest|e] eqn:Er; simpl; [|discriminate].
    intros E'. injection E' as <-. apply Forall_app. split.
    + now apply utf8_char_bytes with c.
    + now apply IH with (S pos).
Qed.

Lemma hex_digit_lower d : (d < 16)%N -> lower_hex_char (hex_digit d) = true.
Proof.
  intros H. unfold lower_hex_char, in_class, hex_digit.
  change (chr "0") with 48%N. change (chr "9") with 57%N.
  change (chr "a") with 97%N. change (chr "f") with 102%N.
  cbn [existsb fst snd].
  rewrite orb_false_r, orb_true_iff, !andb_true_iff, !N.leb_le.
  destruct (N.ltb_spec d 10); lia.
Qed.

(** [bytes.hex()] gives two characters per byte, all in [[0-9a-f]]. *)
Lemma bytes_hex_length bs : length (bytes_hex bs) = 2 * length bs.
Proof. induction bs as [|b bs IH]; simpl; [reflexivity | rewrite IH; lia]. Qed.

Lemma bytes_hex_lower bs :
  Forall (fun b => (b < 256)%N) bs ->
  forallb lower_hex_char (bytes_hex bs) = true.
Proof.
  induction 1 as [|b bs Hb _ IH]; [reflexivity|].
  cbn [bytes_hex flat_map app forallb]. fold (bytes_hex bs). rewrite IH.
  rewrite !hex_digit_lower; [reflexivity | |].
  - apply N.mod_upper_bound. discriminate.
  - apply N.Div0.div_lt_upper_bound. exact Hb.
Qed.

(** ** An invalid [tx_pub_key] *)

Lemma non_str_encode p :
  type_of p <> TStr ->
  py_encode_utf8 p = Error (AttributeError (type_of p) "encode").
Proof. destruct p; simpl; congruence. Qed.

(** The run on a document whose element [out], after elements that pass,
    ends the loop with outcome [o] and lines [ls]. *)
Lemma run_outputs_at d pre out rest o ls :
  dict_get d k_outputs = Some (PList (pre ++ out :: rest)) ->
  forallb passes_output pre = true ->
  emits (check_output (length pre) out) (Raise o) ls ->
  run (Ok (PDict d)) =
  (msg_checking_outputs (length (pre ++ out :: rest))
     :: (lines_from valid_line 0 pre ++ ls) ++ closing (Raise o),
   exit_status (finish (Raise o))).
Proof.
  intros Hd Hpre E.
  apply run_outputs; [exact Hd|].
  apply emits_for_app with passes_output; auto using check_output_passes.
  now apply emits_for_raise.
Qed.

(** C6, on the input [{"outputs": [{"tx_pub_key": [1, 2, 3]}]}]: the value
    is truthy and [validate_hex] returns [False] for it, the invalid-field
    line is printed, and then [.encode] raises: no hex dump is printed, the
    last line is the handler's. *)
Lemma invalid_list_pubkey_no_hex_dump :
  let pubkey := PList [PInt 1; PInt 2; PInt 3] in
  let doc := PDict [(k_outputs, PList [PDict [(k_tx_pub_key, pubkey)]])] in
  truthy pubkey = true /\
  validate_hex pubkey 64 = Ok false /\
  run (Ok doc) =
  ([msg_checking_outputs 1;
    msg_output_invalid 0 pubkey 3;
    msg_validation_error (AttributeError TList "encode")], 1%Z) /\
  forall hex, ~ In (msg_hex_repr hex) (fst (run (Ok doc))).
Proof.
  cbv zeta. repeat split.
  intros hex H. vm_compute in H.
  destruct H as [H | [H | [H | []]]]; discriminate.
Qed.

(** C6, amended. The first element of [outputs] whose [tx_pub_key] is a
    non-empty string of Unicode scalar values that [validate_hex] rejects
    ends the run with two lines, the invalid-field line (index, value,
    length) and the hex dump of the value's UTF-8 bytes, two characters of
    [[0-9a-f]] per byte, and exit status 1.  When the value is truthy and
    rejected but not a string, the invalid-field line is followed by the
    handler's line instead of the dump; the exit status is 1 as well. *)
Theorem invalid_tx_pub_key_diagnostic :
  (forall d pre out rest s,
      dict_get d k_outputs = Some (PList (pre ++ out :: rest)) ->
      forallb passes_output pre = true ->
      py_get out k_tx_pub_key = Ok (PStr s) ->
      truthy (PStr s) = true ->
      validate_hex (PStr s) 64 = Ok false ->
      forallb scalar_value s = true ->
      exists bs,
        utf8_from 0 s = Ok bs /\
        run (Ok (PDict d)) =
        (msg_checking_outputs (length (pre ++ out :: rest))
           :: lines_from valid_line 0 pre
           ++ [[Lit "Error: Output "; FInt (length pre);
                Lit " has invalid tx_pub_key: '"; FObj (PStr s);
                Lit "' len="; FInt (length s)];
               [Lit "Hex repr: "; FStr (bytes_hex bs)]],
         1%Z) /\
        length (bytes_hex bs) = 2 * length bs /\
        forallb lower_hex_char (bytes_hex bs) = true) /\
  (forall d pre out rest p,
      dict_get d k_outputs = Some (PList (pre ++ out :: rest)) ->
      forallb passes_output pre = true ->
      py_get out k_tx_pub_key = Ok p ->
      truthy p = true ->
      validate_hex p 64 = Ok false ->
      type_of p <> TStr ->
      exists n,
        py_len p = Ok n /\
        run (Ok (PDict d)) =
        (msg_checking_outputs (length (pre ++ out :: rest))
           :: lines_from valid_line 0 pre
           ++ [[Lit "Error: Output "; FInt (length pre);
                Lit " has invalid tx_pub_key: '"; FObj p;
                Lit "' len="; FInt n];
               [Lit "Validation Error: ";
                FExn (AttributeError (type_of p) "encode")]],
         1%Z)).
Proof.
  split.
  - intros d pre out rest s Hd Hpre Hp Ht Hv Hs.
    destruct (utf8_from_ok s Hs 0) as [bs Hbs].
    exists bs. split; [exact Hbs|]. split; [|split].
    + rewrite (run_outputs_at d pre out rest (SystemExit 1)
                 [msg_output_invalid (length pre) (PStr s) (length s);
                  msg_hex_repr (bytes_hex bs)] Hd Hpre).
      * cbn [closing finish exit_status]. now rewrite app_nil_r.
      * now apply check_output_invalid.
    + apply bytes_hex_length.
    + apply bytes_hex_lower. now apply utf8_from_bytes with s 0.
  - intros d pre out rest p Hd Hpre Hp Ht Hv Hty.
    destruct (validate_hex_len _ _ _ Hv) as [n Hn].
    exists n. split; [exact Hn|].
    rewrite (run_outputs_at d pre out rest
               (Exception (AttributeError (type_of p) "encode"))
               [msg_output_invalid (length pre) p n] Hd Hpre).
    + cbn [closing finish exit_status]. now rewrite <- app_assoc.
    + apply check_output_invalid_no_dump; auto using non_str_encode.
Qed.

Lemma invalid_tx_pub_key_diagnostic_witness :
  exists bs,
    utf8_from 0 (str_of "xyz") = Ok bs /\
    run (Ok (PDict [(k_outputs,
                     PList [PDict [(k_tx_pub_key, PStr (str_of "xyz"))]])])) =
    (msg_checking_outputs 1
       :: [] ++ [msg_output_invalid 0 (PStr (str_of "xyz")) 3;
                 msg_hex_repr (bytes_hex bs)], 1%Z) /\
    length (bytes_hex bs) = 2 * length bs /\
    forallb lower_hex_char (bytes_hex bs) = true.
Proof.
  apply (proj1 invalid_tx_pub_key_diagnostic
           [(k_outputs, PList [PDict [(k_tx_pub_key, PStr (str_of "xyz"))]])]
           [] (PDict [(k_tx_pub_key, PStr (str_of "xyz"))]) []
           (str_of "xyz")); reflexivity.
Defined.

(* ================================================================== *)
(** * Further properties of the script *)

(** ** [validate_hex] on every value *)

Lemma validate_hex_non_str p n :
  type_of p <> TStr ->
  validate_hex p n =
  match py_len p with
  | Ok m => if Nat.eqb m n
            then Error (TypeError (ExpectedString (type_of p)))
            else Ok false
  | Error e => Error e
  end.
Proof.
  intros H. unfold validate_hex.
  destruct p as [|b|z|f|s|xs|kvs]; simpl in H; try congruence; simpl;
    try reflexivity.
  - destruct (Nat.eqb (length xs) n); reflexivity.
  - destruct (Nat.eqb (length kvs) n); reflexivity.
Qed.

Lemma validate_hex_true_str p n :
  validate_hex p n = Ok true -> exists s, p = PStr s.
Proof.
  intros H. destruct p as [|b|z|f|s|xs|kvs]; try (now eauto);
    rewrite validate_hex_non_str in H by discriminate; simpl in H;
    try discriminate.
  - destruct (Nat.eqb (length xs) n); discriminate.
  - destruct (Nat.eqb (length kvs) n); discriminate.
Qed.

(** X1. On a string, [validate_hex(s, n)] is [True] exactly when [s] has
    [n] characters, is not empty, and consists of hex digits, the last of
    which may be replaced by a newline; otherwise it is [False]. *)
Theorem validate_hex_on_str :
  forall s n,
    (validate_hex (PStr s) n = Ok true <->
     length s = n /\ s <> [] /\
     (forallb hex_char s = true \/
      exists h, s = h ++ [10%N] /\ h <> [] /\ forallb hex_char h = true)) /\
    (validate_hex (PStr s) n = Ok true \/ validate_hex (PStr s) n = Ok false).
Proof.
  intros s n. split.
  - apply validate_hex_str_true_iff.
  - destruct (validate_hex_str_total s n) as [[|] H]; auto.
Qed.

(** X2. [validate_hex] never answers [True] for a value that is not a
    string: a number, a boolean or [null] makes [len] raise, an array or an
    object of another length gives [False], and one of the expected length
    makes [re.match] raise. *)
Theorem validate_hex_never_accepts_non_str :
  forall p n,
    type_of p <> TStr ->
    validate_hex p n <> Ok true /\
    (sized p = false ->
     validate_hex p n = Error (TypeError (NoLen (type_of p)))) /\
    (forall m, py_len p = Ok m -> m <> n -> validate_hex p n = Ok false) /\
    (py_len p = Ok n ->
     validate_hex p n = Error (TypeError (ExpectedString (type_of p)))).
Proof.
  intros p n Hp. repeat split.
  - intros H. destruct (validate_hex_true_str _ _ H) as [s ->]. now apply Hp.
  - intros Hs. rewrite validate_hex_non_str by exact Hp.
    destruct p; simpl in *; try discriminate; reflexivity.
  - intros m Hm Hne. rewrite validate_hex_non_str, Hm by exact Hp.
    destruct (Nat.eqb_spec m n); [contradiction | reflexivity].
  - intros Hm. rewrite validate_hex_non_str, Hm by exact Hp.
    now rewrite Nat.eqb_refl.
Qed.

Lemma validate_hex_never_accepts_non_str_witness :
  validate_hex (PList [PInt 1]) 64 <> Ok true.
Proof.
  apply (validate_hex_never_accepts_non_str (PList [PInt 1]) 64).
  discriminate.
Defined.

(** X3. With expected length 0 nothing is accepted: the empty string has
    the length, but the pattern wants at least one digit. *)
Theorem validate_hex_zero_length :
  forall s, validate_hex (PStr s) 0 = Ok false.
Proof.
  intros s. destruct (validate_hex_str_total s 0) as [[|] H]; [|exact H].
  apply validate_hex_str_true_iff in H as (Hl & Hne & _).
  destruct s; [congruence | discriminate].
Qed.

(** ** When an element passes *)

Lemma passes_output_iff out :
  passes_output out = true <-> accepted_output out.
Proof.
  unfold passes_output, accepted_output. split.
  - destruct out; simpl; try discriminate.
    destruct (dict_get kvs k_tx_pub_key) as [p|] eqn:Hg; [|discriminate].
    intros H. apply andb_true_iff in H as [_ H].
    destruct (validate_hex p 64) as [[|]|e] eqn:Hv; try discriminate.
    destruct (validate_hex_true_str _ _ Hv) as [s ->].
    apply validate_hex_str_true_iff in Hv as (Hl & _ & Hs).
    exists kvs, s. repeat split; auto.
    destruct Hs as [Hs | (h & E & _ & Hh)]; [now left | right; eauto].
  - intros (kvs & s & -> & Hg & Hl & Hs). simpl. rewrite Hg.
    assert (Hne : s <> []) by (destruct s; [discriminate Hl | discriminate]).
    assert (Hv : validate_hex (PStr s) 64 = Ok true).
    { apply validate_hex_str_true_iff. repeat split; auto.
      destruct Hs as [Hs | (h & E & Hh)]; [now left | right].
      exists h. repeat split; auto. intros ->. subst s. discriminate Hl. }
    rewrite Hv. destruct s; [congruence | reflexivity].
Qed.

Lemma sized_len v : sized v = true <-> exists n, py_len v = Ok n.
Proof.
  destruct v; simpl; split; intros H; try discriminate; eauto;
    destruct H as [m H]; discriminate.
Qed.

Lemma passes_transaction_iff tx :
  passes_transaction tx = true <-> accepted_transaction tx.
Proof.
  unfold passes_transaction, accepted_transaction. split.
  - destruct tx; simpl; try discriminate.
    destruct (dict_get kvs k_spent_outputs) as [so|] eqn:Hg; [|discriminate].
    destruct (py_len so) as [n|e] eqn:Hl; [|discriminate].
    intros _. exists kvs, so. repeat split; auto.
    apply sized_len. eauto.
  - intros (kvs & so & -> & Hg & Hs). simpl. rewrite Hg.
    apply sized_len in Hs as [n ->]. reflexivity.
Qed.

Lemma forallb_Forall_iff {A} (p : A -> bool) (P : A -> Prop) xs :
  (forall x, p x = true <-> P x) ->
  (forallb p xs = true <-> Forall P xs).
Proof.
  intros H. rewrite forallb_forall, Forall_forall.
  split; intros F x Hx; apply H, F, Hx.
Qed.

(** The first element that does not pass. *)
Lemma first_failure {A} (p : A -> bool) xs :
  forallb p xs = false ->
  exists pre x rest,
    xs = pre ++ x :: rest /\ forallb p pre = true /\ p x = false.
Proof.
  induction xs as [|x xs IH]; simpl; [discriminate|].
  destruct (p x) eqn:Hx; simpl.
  - intros H. destruct (IH H) as (pre & y & rest & -> & Hpre & Hy).
    exists (x :: pre), y, rest. simpl. rewrite Hx. auto.
  - intros _. exists [], x, xs. auto.
Qed.

(** An element that does not pass ends the loop. *)
Lemma check_output_fails i out :
  passes_output out = false ->
  exists r ls,
    emits (check_output i out) (Raise r) ls /\ post Outputs (Raise r) ls.
Proof.
  intros Hp.
  destruct (check_output_post i out) as (o & ls & E & P).
  destruct o as [[]|r]; [|eauto].
  exfalso. unfold passes_output in Hp.
  destruct (py_get out k_tx_pub_key) as [p|e] eqn:Hg.
  2:{ destruct (emits_functional _ _ _ _ _ E
                  (check_output_not_object i out e Hg)). discriminate. }
  destruct (truthy p) eqn:Ht.
  2:{ destruct (emits_functional _ _ _ _ _ E
                  (check_output_missing i out p Hg Ht)). discriminate. }
  destruct (validate_hex p 64) as [[|]|e] eqn:Hv; simpl in Hp.
  - discriminate.
  - destruct (validate_hex_len _ _ _ Hv) as [n Hn].
    destruct (py_encode_utf8 p) as [bs|e] eqn:He.
    + destruct (emits_functional _ _ _ _ _ E
                  (check_output_invalid i out p n bs Hg Ht Hv Hn He)).
      discriminate.
    + destruct (emits_functional _ _ _ _ _ E
                  (check_output_invalid_no_dump i out p n e Hg Ht Hv Hn He)).
      discriminate.
  - destruct (emits_functional _ _ _ _ _ E
                (check_output_predicate_raises i out p e Hg Ht Hv)).
    discriminate.
Qed.

Lemma check_transaction_fails i tx :
  passes_transaction tx = false ->
  exists r ls,
    emits (check_transaction i tx) (Raise r) ls /\
    post Transactions (Raise r) ls.
Proof.
  intros Hp.
  destruct (check_transaction_post i tx) as (o & ls & E & P).
  destruct o as [[]|r]; [|eauto].
  exfalso. unfold passes_transaction in Hp.
  destruct (py_getitem tx k_spent_outputs) as [so|e] eqn:Hg.
  - destruct (py_len so) as [n|e] eqn:Hl; [discriminate|].
    destruct (emits_functional _ _ _ _ _ E
                (check_transaction_unsized i tx so e
                   (getitem_contains _ _ _ Hg) Hg Hl)).
    discriminate.
  - destruct (py_contains k_spent_outputs tx) as [[|]|e'] eqn:Hc.
    + destruct (emits_functional _ _ _ _ _ E
                  (check_transaction_bad_index i tx e Hc Hg)). discriminate.
    + destruct (emits_functional _ _ _ _ _ E
                  (check_transaction_missing i tx Hc)). discriminate.
    + destruct (emits_functional _ _ _ _ _ E
                  (check_transaction_raises i tx e' Hc)). discriminate.
Qed.

Lemma exit_status_raised t r ls :
  post t (Raise r) ls -> exit_status (finish (Raise r)) = 1%Z.
Proof.
  destruct r as [code|e]; simpl; [|reflexivity]. now intros [-> _].
Qed.

(** ** Whole runs *)

Lemma emits_for_all body line_of (passes : pyobj -> bool) :
  (forall i x, passes x = true -> emits (body i x) (Ret tt) [line_of i x]) ->
  forall xs i,
    forallb passes xs = true ->
    emits (for_enumerate body i xs) (Ret tt) (lines_from line_of i xs).
Proof.
  intros Hbody xs i Hxs.
  pose proof (emits_for_app body line_of passes Hbody xs i [] (Ret tt) []
                Hxs (emits_for_nil _ _)) as H.
  now rewrite !app_nil_r in H.
Qed.

Lemma accepted_outputs_forallb xs :
  forallb passes_output xs = true <-> Forall accepted_output xs.
Proof. apply forallb_Forall_iff, passes_output_iff. Qed.

Lemma accepted_transactions_forallb xs :
  forallb passes_transaction xs = true <-> Forall accepted_transaction xs.
Proof. apply forallb_Forall_iff, passes_transaction_iff. Qed.

Lemma not_accepted_output x : ~ accepted_output x -> passes_output x = false.
Proof.
  intros H. destruct (passes_output x) eqn:E; [|reflexivity].
  now apply passes_output_iff in E.
Qed.

Lemma not_accepted_transaction x :
  ~ accepted_transaction x -> passes_transaction x = false.
Proof.
  intros H. destruct (passes_transaction x) eqn:E; [|reflexivity].
  now apply passes_transaction_iff in E.
Qed.

Lemma run_transactions_at d pre tx rest o ls :
  dict_get d k_outputs = None ->
  dict_get d k_transactions = Some (PList (pre ++ tx :: rest)) ->
  forallb passes_transaction pre = true ->
  emits (check_transaction (length pre) tx) (Raise o) ls ->
  run (Ok (PDict d)) =
  (msg_checking_transactions (length (pre ++ tx :: rest))
     :: (lines_from has_line 0 pre ++ ls) ++ closing (Raise o),
   exit_status (finish (Raise o))).
Proof.
  intros Hn Hd Hpre E.
  apply run_transactions; auto.
  apply emits_for_app with passes_transaction;
    auto using check_transaction_passes.
  now apply emits_for_raise.
Qed.

(** X4. On a document whose [outputs] is an array, the exit status is 0
    exactly when every element is an object whose [tx_pub_key] is a
    64-character string that the pattern lets through; the run then prints
    the count, one valid line per element with its index in array order,
    and the success line. *)
Theorem outputs_run_succeeds_iff :
  forall d xs,
    dict_get d k_outputs = Some (PList xs) ->
    (snd (run (Ok (PDict d))) = 0%Z <-> Forall accepted_output xs) /\
    (Forall accepted_output xs ->
     run (Ok (PDict d)) =
     ([Lit "Checking "; FInt (length xs); Lit " outputs..."]
        :: lines_from
             (fun i out => [Lit "Output "; FInt i; Lit " tx_pub_key valid: ";
                            FObj (pubkey_of out)]) 0 xs
        ++ [[Lit "Validation Successful"]],
      0%Z)).
Proof.
  intros d xs Hd.
  assert (Hok : Forall accepted_output xs ->
                run (Ok (PDict d)) =
                (msg_checking_outputs (length xs)
                   :: lines_from valid_line 0 xs ++ [msg_successful], 0%Z)).
  { intros H. apply accepted_outputs_forallb in H.
    exact (run_outputs d xs (Ret tt) _ Hd
             (emits_for_all _ _ _ check_output_passes xs 0 H)). }
  split; [split|exact Hok].
  - intros Hs.
    destruct (forallb passes_output xs) eqn:Hall;
      [now apply accepted_outputs_forallb|].
    destruct (first_failure _ _ Hall) as (pre & x & rest & -> & Hpre & Hx).
    destruct (check_output_fails (length pre) x Hx) as (r & ls & E & P).
    rewrite (run_outputs_at d pre x rest r ls Hd Hpre E) in Hs. cbn [snd] in Hs.
    rewrite (exit_status_raised _ _ _ P) in Hs. discriminate.
  - intros H. now rewrite (Hok H).
Qed.

Lemma outputs_run_succeeds_iff_witness :
  snd (run (Ok (PDict [(k_outputs, PList [PDict []])]))) = 0%Z <->
  Forall accepted_output [PDict []].
Proof.
  apply (outputs_run_succeeds_iff [(k_outputs, PList [PDict []])] [PDict []]).
  reflexivity.
Defined.

(** X5. On a document without [outputs] whose [transactions] is an array,
    the exit status is 0 exactly when every element is an object that has
    [spent_outputs] with a string, an array or an object under it; the run
    then prints the count, one line per element with its index and the
    length of the value, and the success line. *)
Theorem transactions_run_succeeds_iff :
  forall d xs,
    dict_get d k_outputs = None ->
    dict_get d k_transactions = Some (PList xs) ->
    (snd (run (Ok (PDict d))) = 0%Z <-> Forall accepted_transaction xs) /\
    (Forall accepted_transaction xs ->
     run (Ok (PDict d)) =
     ([Lit "Checking "; FInt (length xs); Lit " transactions..."]
        :: lines_from
             (fun i tx => [Lit "Transaction "; FInt i;
                           Lit " has spent_outputs ("; FInt (spent_count tx);
                           Lit " items)"]) 0 xs
        ++ [[Lit "Validation Successful"]],
      0%Z)).
Proof.
  intros d xs Hn Hd.
  assert (Hok : Forall accepted_transaction xs ->
                run (Ok (PDict d)) =
                (msg_checking_transactions (length xs)
                   :: lines_from has_line 0 xs ++ [msg_successful], 0%Z)).
  { intros H. apply accepted_transactions_forallb in H.
    exact (run_transactions d xs (Ret tt) _ Hn Hd
             (emits_for_all _ _ _ check_transaction_passes xs 0 H)). }
  split; [split|exact Hok].
  - intros Hs.
    destruct (forallb passes_transaction xs) eqn:Hall;
      [now apply accepted_transactions_forallb|].
    destruct (first_failure _ _ Hall) as (pre & x & rest & -> & Hpre & Hx).
    destruct (check_transaction_fails (length pre) x Hx) as (r & ls & E & P).
    rewrite (run_transactions_at d pre x rest r ls Hn Hd Hpre E) in Hs.
    cbn [snd] in Hs.
    rewrite (exit_status_raised _ _ _ P) in Hs. discriminate.
  - intros H. now rewrite (Hok H).
Qed.

Lemma transactions_run_succeeds_iff_witness :
  snd (run (Ok (PDict [(k_transactions, PList [PInt 1])]))) = 0%Z <->
  Forall accepted_transaction [PInt 1].
Proof.
  apply (transactions_run_succeeds_iff
           [(k_transactions, PList [PInt 1])] [PInt 1]); reflexivity.
Defined.

(** X6. The loop over [outputs] is fail-fast: once an element is not
    accepted, the exit status is 1 and the elements after it change
    nothing but the count in the first line. *)
Theorem outputs_after_failure_ignored :
  forall d d' pre x rest rest',
    dict_get d k_outputs = Some (PList (pre ++ x :: rest)) ->
    dict_get d' k_outputs = Some (PList (pre ++ x :: rest')) ->
    Forall accepted_output pre ->
    ~ accepted_output x ->
    snd (run (Ok (PDict d))) = 1%Z /\
    run (Ok (PDict d')) =
    ([Lit "Checking "; FInt (length (pre ++ x :: rest')); Lit " outputs..."]
       :: tl (fst (run (Ok (PDict d)))),
     1%Z).
Proof.
  intros d d' pre x rest rest' Hd Hd' Hpre Hx.
  apply accepted_outputs_forallb in Hpre.
  apply not_accepted_output in Hx.
  destruct (check_output_fails (length pre) x Hx) as (r & ls & E & P).
  rewrite (run_outputs_at d pre x rest r ls Hd Hpre E).
  rewrite (run_outputs_at d' pre x rest' r ls Hd' Hpre E).
  rewrite (exit_status_raised _ _ _ P). split; reflexivity.
Qed.

Lemma outputs_after_failure_ignored_witness :
  snd (run (Ok (PDict [(k_outputs, PList [PInt 1; PInt 2])]))) = 1%Z /\
  run (Ok (PDict [(k_outputs, PList [PInt 1])])) =
  (msg_checking_outputs 1
     :: tl (fst (run (Ok (PDict [(k_outputs, PList [PInt 1; PInt 2])])))),
   1%Z).
Proof.
  apply (outputs_after_failure_ignored
           [(k_outputs, PList [PInt 1; PInt 2])]
           [(k_outputs, PList [PInt 1])] [] (PInt 1) [PInt 2] []).
  - reflexivity.
  - reflexivity.
  - constructor.
  - intros (kvs & s & H & _). discriminate H.
Defined.

(** X7. The loop over [transactions] is fail-fast in the same way. *)
Theorem transactions_after_failure_ignored :
  forall d d' pre x rest rest',
    dict_get d k_outputs = None ->
    dict_get d' k_outputs = None ->
    dict_get d k_transactions = Some (PList (pre ++ x :: rest)) ->
    dict_get d' k_transactions = Some (PList (pre ++ x :: rest')) ->
    Forall accepted_transaction pre ->
    ~ accepted_transaction x ->
    snd (run (Ok (PDict d))) = 1%Z /\
    run (Ok (PDict d')) =
    ([Lit "Checking "; FInt (length (pre ++ x :: rest'));
      Lit " transactions..."]
       :: tl (fst (run (Ok (PDict d)))),
     1%Z).
Proof.
  intros d d' pre x rest rest' Hn Hn' Hd Hd' Hpre Hx.
  apply accepted_transactions_forallb in Hpre.
  apply not_accepted_transaction in Hx.
  destruct (check_transaction_fails (length pre) x Hx) as (r & ls & E & P).
  rewrite (run_transactions_at d pre x rest r ls Hn Hd Hpre E).
  rewrite (run_transactions_at d' pre x rest' r ls Hn' Hd' Hpre E).
  rewrite (exit_status_raised _ _ _ P). split; reflexivity.
Qed.

Lemma transactions_after_failure_ignored_witness :
  snd (run (Ok (PDict [(k_transactions, PList [PDict []; PInt 2])]))) = 1%Z /\
  run (Ok (PDict [(k_transactions, PList [PDict []])])) =
  (msg_checking_transactions 1
     :: tl (fst (run (Ok (PDict [(k_transactions,
                                  PList [PDict []; PInt 2])])))),
   1%Z).
Proof.
  apply (transactions_after_failure_ignored
           [(k_transactions, PList [PDict []; PInt 2])]
           [(k_transactions, PList [PDict []])] [] (PDict []) [PInt 2] []).
  - reflexivity.
  - reflexivity.
  - reflexivity.
  - reflexivity.
  - constructor.
  - intros (kvs & so & H & Hg & _). injection H as <-. discriminate Hg.
Defined.

(** X8. The first element of [transactions] in which [spent_outputs] is not
    found (an object without the key, but also an array without that string
    or a string without that text) ends the run with the missing-field line
    at its 0-based index, exit status 1. *)
Theorem missing_spent_outputs_stops_run :
  forall d pre tx rest,
    dict_get d k_outputs = None ->
    dict_get d k_transactions = Some (PList (pre ++ tx :: rest)) ->
    Forall accepted_transaction pre ->
    py_contains k_spent_outputs tx = Ok false ->
    run (Ok (PDict d)) =
    ([Lit "Checking "; FInt (length (pre ++ tx :: rest));
      Lit " transactions..."]
       :: lines_from has_line 0 pre
       ++ [[Lit "Error: Transaction "; FInt (length pre);
            Lit " missing spent_outputs"]],
     1%Z).
Proof.
  intros d pre tx rest Hn Hd Hpre Hc.
  apply accepted_transactions_forallb in Hpre.
  rewrite (run_transactions_at d pre tx rest (SystemExit 1)
             [msg_transaction_missing (length pre)] Hn Hd Hpre
             (check_transaction_missing _ _ Hc)).
  cbn [closing finish exit_status]. now rewrite app_nil_r.
Qed.

Lemma missing_spent_outputs_stops_run_witness :
  run (Ok (PDict [(k_transactions, PList [PDict []])])) =
  ([msg_checking_transactions 1; msg_transaction_missing 0], 1%Z).
Proof.
  apply (missing_spent_outputs_stops_run
           [(k_transactions, PList [PDict []])] [] (PDict []) []);
    [reflexivity | reflexivity | constructor | reflexivity].
Defined.

(** X9. The first element of [transactions] that is a number, a boolean or
    [null] makes the membership test raise: the last line is the handler's,
    exit status 1, and no missing-field line is printed for it. *)
Theorem non_container_transaction_generic_error :
  forall d pre tx rest,
    dict_get d k_outputs = None ->
    dict_get d k_transactions = Some (PList (pre ++ tx :: rest)) ->
    Forall accepted_transaction pre ->
    sized tx = false ->
    run (Ok (PDict d)) =
    ([Lit "Checking "; FInt (length (pre ++ tx :: rest));
      Lit " transactions..."]
       :: lines_from has_line 0 pre
       ++ [[Lit "Validation Error: ";
            FExn (TypeError (NotContainer (type_of tx)))]],
     1%Z).
Proof.
  intros d pre tx rest Hn Hd Hpre Hs.
  apply accepted_transactions_forallb in Hpre.
  assert (Hc : py_contains k_spent_outputs tx =
               Error (TypeError (NotContainer (type_of tx)))).
  { destruct tx; simpl in *; try discriminate; reflexivity. }
  rewrite (run_transactions_at d pre tx rest _ [] Hn Hd Hpre
             (check_transaction_raises _ _ _ Hc)).
  cbn [closing finish exit_status]. now rewrite app_nil_r.
Qed.

Lemma non_container_transaction_generic_error_witness :
  run (Ok (PDict [(k_transactions, PList [PInt 5])])) =
  ([msg_checking_transactions 1;
    msg_validation_error (TypeError (NotContainer TInt))], 1%Z).
Proof.
  apply (non_container_transaction_generic_error
           [(k_transactions, PList [PInt 5])] [] (PInt 5) []);
    [reflexivity | reflexivity | constructor | reflexivity].
Defined.

(** ** [outputs] that is not an array *)

Lemma run_outputs_value d v n xs o ls :
  dict_get d k_outputs = Some v ->
  py_len v = Ok n -> py_iter v = Ok xs ->
  emits (for_enumerate check_output 0 xs) o ls ->
  run (Ok (PDict d)) =
  (msg_checking_outputs n :: ls ++ closing o, exit_status (finish o)).
Proof.
  intros Hd Hl Hi E.
  apply (run_of_dispatch (PDict d) o (msg_checking_outputs n :: ls)).
  apply dispatch_outputs with v xs; auto.
  - now apply dict_contains with v.
  - now apply dict_getitem.
Qed.

Lemma run_outputs_unsized d v :
  dict_get d k_outputs = Some v -> sized v = false ->
  run (Ok (PDict d)) =
  ([msg_validation_error (TypeError (NoLen (type_of v)))], 1%Z).
Proof.
  intros Hd Hs.
  assert (Hl : py_len v = Error (TypeError (NoLen (type_of v)))).
  { destruct v; simpl in *; try discriminate; reflexivity. }
  exact (run_of_dispatch (PDict d) _ _
           (dispatch_outputs_unsized (PDict d) v _
              (dict_contains _ _ _ Hd) (dict_getitem _ _ _ Hd) Hl)).
Qed.

(** X10. When [outputs] is not an array: a number, a boolean or [null]
    makes [len] raise before anything is printed; a non-empty string or
    object is counted and iterated, and [.get] raises on its first character
    or key; an empty string or object passes as zero outputs.  The exit
    status is 1, 1 and 0. *)
Theorem outputs_not_an_array :
  forall d v,
    dict_get d k_outputs = Some v ->
    type_of v <> TList ->
    (sized v = false ->
     run (Ok (PDict d)) =
     ([[Lit "Validation Error: "; FExn (TypeError (NoLen (type_of v)))]],
      1%Z)) /\
    (sized v = true -> truthy v = true ->
     exists n,
       py_len v = Ok n /\
       run (Ok (PDict d)) =
       ([[Lit "Checking "; FInt n; Lit " outputs..."];
         [Lit "Validation Error: "; FExn (AttributeError TStr "get")]],
        1%Z)) /\
    (sized v = true -> truthy v = false ->
     run (Ok (PDict d)) =
     ([[Lit "Checking "; FInt 0; Lit " outputs..."];
       [Lit "Validation Successful"]], 0%Z)).
Proof.
  intros d v Hd Hv. split; [|split].
  - intros Hs. now apply run_outputs_unsized.
  - intros Hs Ht.
    destruct v as [|b|z|f|[|c s]|xs|[|[k x] kvs]];
      simpl in Hs, Ht, Hv; try discriminate; try congruence.
    + exists (S (length s)). split; [reflexivity|].
      exact (run_outputs_value d (PStr (c :: s)) _ _ _ _ Hd eq_refl eq_refl
               (emits_for_raise _ _ _ _ _ _
                  (check_output_not_object 0 (PStr [c]) _ eq_refl))).
    + exists (S (length kvs)). split; [reflexivity|].
      exact (run_outputs_value d (PDict ((k, x) :: kvs)) _ _ _ _ Hd
               eq_refl eq_refl
               (emits_for_raise _ _ _ _ _ _
                  (check_output_not_object 0 (PStr k) _ eq_refl))).
  - intros Hs Ht.
    destruct v as [|b|z|f|[|c s]|xs|[|[k x] kvs]];
      simpl in Hs, Ht, Hv; try discriminate; try congruence.
    + exact (run_outputs_value d (PStr []) 0 [] _ _ Hd eq_refl eq_refl
               (emits_for_nil _ _)).
    + exact (run_outputs_value d (PDict []) 0 [] _ _ Hd eq_refl eq_refl
               (emits_for_nil _ _)).
Qed.

Lemma outputs_not_an_array_witness :
  run (Ok (PDict [(k_outputs, PInt 3)])) =
  ([msg_validation_error (TypeError (NoLen TInt))], 1%Z).
Proof.
  apply (proj1 (outputs_not_an_array [(k_outputs, PInt 3)] (PInt 3)
                  eq_refl ltac:(discriminate))).
  reflexivity.
Defined.

(** ** The hex dump identifies the value *)

Lemma lor_disjoint a b : N.land a b = 0%N -> N.lor a b = (a + b)%N.
Proof.
  intros H. rewrite N.add_nocarry_lxor by exact H. now rewrite N.lxor_lor.
Qed.

Lemma lor_tag tag y k :
  N.land tag (N.ones k) = 0%N -> (y < 2 ^ k)%N -> N.lor tag y = (tag + y)%N.
Proof.
  intros Ht Hy. apply lor_disjoint.
  rewrite <- (N.mod_small y (2 ^ k)) by exact Hy.
  rewrite <- N.land_ones, (N.land_comm y), N.land_assoc, Ht.
  apply N.land_0_l.
Qed.

Lemma continuation_arith x :
  N.lor 0x80 (N.land x 0x3F) = (128 + x mod 64)%N.
Proof.
  change 0x3F%N with (N.ones 6). rewrite N.land_ones.
  apply (lor_tag 128 _ 6); [reflexivity|].
  apply N.mod_upper_bound. discriminate.
Qed.

Lemma split2 c : (c = 64 * (c / 64) + c mod 64)%N.
Proof. apply N.div_mod. discriminate. Qed.

Lemma split3 c :
  (c = 4096 * (c / 4096) + 64 * ((c / 64) mod 64) + c mod 64)%N.
Proof.
  pose proof (split2 c) as H1. pose proof (split2 (c / 64)) as H2.
  rewrite N.Div0.div_div in H2. change (64 * 64)%N with 4096%N in H2. lia.
Qed.

Lemma split4 c :
  (c = 262144 * (c / 262144) + 4096 * ((c / 4096) mod 64)
       + 64 * ((c / 64) mod 64) + c mod 64)%N.
Proof.
  pose proof (split3 c) as H1. pose proof (split2 (c / 4096)) as H2.
  rewrite N.Div0.div_div in H2. change (4096 * 64)%N with 262144%N in H2. lia.
Qed.

(** The encoder in arithmetic. *)
Lemma utf8_char_arith c :
  (c < 0x110000)%N ->
  utf8_char c =
  if N.ltb c 0x80 then Some [c]
  else if N.ltb c 0x800 then Some [192 + c / 64; 128 + c mod 64]%N
  else if is_surrogate c then None
  else if N.ltb c 0x10000 then
    Some [224 + c / 4096; 128 + (c / 64) mod 64; 128 + c mod 64]%N
  else
    Some [240 + c / 262144; 128 + (c / 4096) mod 64;
          128 + (c / 64) mod 64; 128 + c mod 64]%N.
Proof.
  intros Hc. unfold utf8_char, is_surrogate.
  rewrite !continuation_arith, !N.shiftr_div_pow2.
  change (2 ^ 6)%N with 64%N. change (2 ^ 12)%N with 4096%N.
  change (2 ^ 18)%N with 262144%N.
  destruct (N.ltb_spec c 0x80); [reflexivity|].
  destruct (N.ltb_spec c 0x800).
  { rewrite (lor_tag 0xC0 _ 5); [reflexivity | reflexivity|].
    apply N.Div0.div_lt_upper_bound. simpl. lia. }
  destruct (N.leb 0xD800 c && N.leb c 0xDFFF); [reflexivity|].
  destruct (N.ltb_spec c 0x10000).
  { rewrite (lor_tag 0xE0 _ 4); [reflexivity | reflexivity|].
    apply N.Div0.div_lt_upper_bound. simpl. lia. }
  rewrite (lor_tag 0xF0 _ 3); [reflexivity | reflexivity|].
  apply N.Div0.div_lt_upper_bound. simpl. lia.
Qed.

Lemma cons_eq_inv {A} (a b : A) l l' : a :: l = b :: l' -> a = b /\ l = l'.
Proof. intros H. injection H. auto. Qed.

Lemma mod64_bound x : (x mod 64 < 64)%N.
Proof. apply N.mod_upper_bound. discriminate. Qed.

(** No encoding is the start of another: the first character of an encoded
    text can be read off its bytes. *)
Lemma utf8_char_inj c d bc bd r1 r2 :
  (c < 0x110000)%N -> (d < 0x110000)%N ->
  utf8_char c = Some bc -> utf8_char d = Some bd ->
  bc ++ r1 = bd ++ r2 -> c = d /\ r1 = r2.
Proof.
  intros Hc Hd. rewrite !utf8_char_arith by assumption.
  pose proof (split2 c). pose proof (split3 c). pose proof (split4 c).
  pose proof (mod64_bound c). pose proof (mod64_bound (c / 64)).
  pose proof (mod64_bound (c / 4096)).
  pose proof (split2 d). pose proof (split3 d). pose proof (split4 d).
  pose proof (mod64_bound d). pose proof (mod64_bound (d / 64)).
  pose proof (mod64_bound (d / 4096)).
  destruct (N.ltb_spec c 0x80); [|destruct (N.ltb_spec c 0x800);
    [|destruct (is_surrogate c); [discriminate|];
      destruct (N.ltb_spec c 0x10000)]];
  (destruct (N.ltb_spec d 0x80); [|destruct (N.ltb_spec d 0x800);
    [|destruct (is_surrogate d); [intros; discriminate|];
      destruct (N.ltb_spec d 0x10000)]]);
  intros E1 E2 E;
  assert (Ec : bc = _)
    by (symmetry;
        exact (f_equal (fun o => match o with Some x => x | None => bc end)
                       E1));
  assert (Ed : bd = _)
    by (symmetry;
        exact (f_equal (fun o => match o with Some x => x | None => bd end)
                       E2));
  cbv beta iota in Ec, Ed; subst bc bd; cbn [app] in E;
  repeat match type of E with
         | _ :: _ = _ :: _ =>
             let H := fresh "Hbyte" in
             apply cons_eq_inv in E; destruct E as [H E]
         end;
  first [ split; [lia | assumption] | exfalso; lia ].
Qed.

Lemma utf8_char_nonempty c : utf8_char c <> Some [].
Proof.
  unfold utf8_char.
  destruct (N.ltb c 0x80); [discriminate|].
  destruct (N.ltb c 0x800); [discriminate|].
  destruct (N.leb 0xD800 c && N.leb c 0xDFFF); [discriminate|].
  destruct (N.ltb c 0x10000); discriminate.
Qed.

Lemma utf8_from_inj s1 :
  forall s2 p1 p2 bs,
    Forall (fun c => (c < 0x110000)%N) s1 ->
    Forall (fun c => (c < 0x110000)%N) s2 ->
    utf8_from p1 s1 = Ok bs -> utf8_from p2 s2 = Ok bs -> s1 = s2.
Proof.
  induction s1 as [|c s1 IH]; intros [|d s2] p1 p2 bs F1 F2; simpl.
  - reflexivity.
  - intros E1. assert (bs = []) by congruence. subst bs.
    destruct (utf8_char d) as [bd|] eqn:Ed; [|discriminate].
    destruct (utf8_from (S p2) s2) as [r|e]; simpl; [|discriminate].
    intros E2. assert (E : bd ++ r = []) by congruence.
    apply app_eq_nil in E as [-> _]. now apply utf8_char_nonempty in Ed.
  - destruct (utf8_char c) as [bc|] eqn:Ec; [|discriminate].
    destruct (utf8_from (S p1) s1) as [r|e]; simpl; [|discriminate].
    intros E1 E2. assert (E : bc ++ r = []) by congruence.
    apply app_eq_nil in E as [-> _]. now apply utf8_char_nonempty in Ec.
  - inversion F1 as [|? ? Hc F1']. inversion F2 as [|? ? Hd F2']. subst.
    destruct (utf8_char c) as [bc|] eqn:Ec; [|discriminate].
    destruct (utf8_from (S p1) s1) as [r1|e1] eqn:E1; simpl; [|discriminate].
    destruct (utf8_char d) as [bd|] eqn:Ed; [|discriminate].
    destruct (utf8_from (S p2) s2) as [r2|e2] eqn:E2; simpl; [|discriminate].
    intros H1 H2. assert (E : bc ++ r1 = bd ++ r2) by congruence.
    destruct (utf8_char_inj c d bc bd r1 r2 Hc Hd Ec Ed E) as [-> ->].
    f_equal. now apply IH with (S p1) (S p2) r2.
Qed.

Lemma utf8_from_bytes_range s :
  Forall (fun c => (c < 0x110000)%N) s ->
  forall pos bs, utf8_from pos s = Ok bs -> Forall (fun b => (b < 256)%N) bs.
Proof.
  induction 1 as [|c s Hc _ IH]; intros pos bs; simpl.
  - intros E. assert (bs = []) by congruence. subst. constructor.
  - destruct (utf8_char c) as [cs|] eqn:E; [|discriminate].
    destruct (utf8_from (S pos) s) as [rest|e] eqn:Er; simpl; [|discriminate].
    intros E'. assert (bs = cs ++ rest) by congruence. subst bs.
    apply Forall_app. split.
    + now apply utf8_char_bytes with c.
    + now apply IH with (S pos).
Qed.

Lemma hex_digit_inj d1 d2 :
  (d1 < 16)%N -> (d2 < 16)%N -> hex_digit d1 = hex_digit d2 -> d1 = d2.
Proof.
  unfold hex_digit.
  change (chr "0") with 48%N. change (chr "a") with 97%N.
  destruct (N.ltb_spec d1 10), (N.ltb_spec d2 10); lia.
Qed.

Lemma bytes_hex_cons b bs :
  bytes_hex (b :: bs) =
  hex_digit (N.div b 16) :: hex_digit (N.modulo b 16) :: bytes_hex bs.
Proof. reflexivity. Qed.

Lemma bytes_hex_inj b1 :
  forall b2,
    Forall (fun b => (b < 256)%N) b1 -> Forall (fun b => (b < 256)%N) b2 ->
    bytes_hex b1 = bytes_hex b2 -> b1 = b2.
Proof.
  induction b1 as [|x b1 IH]; intros [|y b2] F1 F2.
  - reflexivity.
  - rewrite bytes_hex_cons. discriminate.
  - rewrite bytes_hex_cons. discriminate.
  - rewrite !bytes_hex_cons. intros E.
    inversion F1 as [|? ? Hx F1']. inversion F2 as [|? ? Hy F2']. subst.
    apply cons_eq_inv in E as [Ehi E]. apply cons_eq_inv in E as [Elo E].
    apply hex_digit_inj in Ehi;
      [|apply N.Div0.div_lt_upper_bound; assumption
       |apply N.Div0.div_lt_upper_bound; assumption].
    apply hex_digit_inj in Elo;
      [|apply N.mod_upper_bound; discriminate
       |apply N.mod_upper_bound; discriminate].
    f_equal.
    + rewrite (N.div_mod x 16), (N.div_mod y 16) by discriminate.
      now rewrite Ehi, Elo.
    + now apply IH.
Qed.

(** X11. The hex dump identifies the value: two strings (of code points up
    to U+10FFFF) whose UTF-8 bytes have the same dump are the same string,
    so characters that look alike or do not show are told apart. *)
Theorem hex_dump_injective :
  forall s1 s2 bs1 bs2,
    Forall (fun c => (c < 0x110000)%N) s1 ->
    Forall (fun c => (c < 0x110000)%N) s2 ->
    py_encode_utf8 (PStr s1) = Ok bs1 ->
    py_encode_utf8 (PStr s2) = Ok bs2 ->
    bytes_hex bs1 = bytes_hex bs2 ->
    s1 = s2.
Proof.
  intros s1 s2 bs1 bs2 F1 F2 E1 E2 E. simpl in E1, E2.
  assert (bs1 = bs2).
  { apply bytes_hex_inj; auto.
    - now apply utf8_from_bytes_range with s1 0.
    - now apply utf8_from_bytes_range with s2 0. }
  subst bs2. now apply utf8_from_inj with 0 0 bs1.
Qed.

Lemma hex_dump_injective_witness :
  str_of "ab" = str_of "ab".
Proof.
  apply (hex_dump_injective (str_of "ab") (str_of "ab") [97; 98]%N [97; 98]%N).
  - repeat constructor.
  - repeat constructor.
  - reflexivity.
  - reflexivity.
  - reflexivity.
Defined.

Lemma utf8_char_length c bs :
  utf8_char c = Some bs ->
  1 <= length bs /\ (length bs = 1 <-> is_ascii c = true).
Proof.
  unfold utf8_char, is_ascii.
  destruct (N.ltb c 0x80); [|destruct (N.ltb c 0x800);
    [|destruct (N.leb 0xD800 c && N.leb c 0xDFFF);
      [discriminate | destruct (N.ltb c 0x10000)]]];
  intros E;
  assert (Eb : bs = _)
    by (symmetry;
        exact (f_equal (fun o => match o with Some x => x | None => bs end) E));
  cbv beta iota in Eb; rewrite Eb; cbn [length];
  (split; [lia|];
   split; intros; try reflexivity; first [lia | discriminate]).
Qed.

Lemma utf8_from_length s :
  forall pos bs,
    utf8_from pos s = Ok bs ->
    length s <= length bs /\
    (length bs = length s <-> forallb is_ascii s = true).
Proof.
  induction s as [|c s IH]; intros pos bs; simpl.
  - intros E. assert (bs = []) by congruence. subst. simpl.
    split; [lia | split; reflexivity].
  - destruct (utf8_char c) as [cs|] eqn:Ec; [|discriminate].
    destruct (utf8_from (S pos) s) as [rest|e] eqn:Er; simpl; [|discriminate].
    intros E. assert (bs = cs ++ rest) by congruence. subst bs.
    destruct (utf8_char_length _ _ Ec) as [H1 H2].
    destruct (IH _ _ Er) as [H3 H4].
    rewrite length_app, andb_true_iff, <- H2, <- H4. lia.
Qed.

(** X12. The dump has two characters per UTF-8 byte, so it is at least
    twice as long as the value, and exactly twice as long when and only
    when every character of the value is ASCII: a longer dump next to the
    printed [len] gives a non-ASCII character away. *)
Theorem hex_dump_length :
  forall s bs,
    py_encode_utf8 (PStr s) = Ok bs ->
    2 * length s <= length (bytes_hex bs) /\
    (length (bytes_hex bs) = 2 * length s <-> forallb is_ascii s = true).
Proof.
  intros s bs E. simpl in E.
  destruct (utf8_from_length _ _ _ E) as [H1 H2].
  rewrite bytes_hex_length, <- H2. lia.
Qed.

Lemma hex_dump_length_witness :
  2 * length (str_of "xyz") <= length (bytes_hex [120; 121; 122]%N).
Proof.
  apply (hex_dump_length (str_of "xyz") [120; 121; 122]%N). reflexivity.
Defined.

(** ** Documents that are arrays or strings *)

Lemma eq_str_iff x k : eq_str x k = true <-> x = PStr k.
Proof.
  destruct x; simpl; try (split; discriminate).
  unfold pystr_eqb. destruct (list_eq_dec N.eq_dec s k) as [E | E].
  - subst. tauto.
  - split; [discriminate | congruence].
Qed.

Lemma list_has_iff k xs :
  existsb (fun x => eq_str x k) xs = true <-> In (PStr k) xs.
Proof.
  rewrite existsb_exists. split.
  - intros (x & Hin & Hx). apply eq_str_iff in Hx. now subst.
  - intros Hin. exists (PStr k). split; [exact Hin | now apply eq_str_iff].
Qed.

Lemma run_bad_index data t :
  (py_contains k_outputs data = Ok true \/
   py_contains k_outputs data = Ok false /\
   py_contains k_transactions data = Ok true) ->
  (forall k, py_getitem data k = Error (TypeError (BadIndex t))) ->
  run (Ok data) = ([msg_validation_error (TypeError (BadIndex t))], 1%Z).
Proof.
  intros [H | [H1 H2]] Hg.
  - exact (run_of_dispatch data _ _
             (dispatch_outputs_bad_index data _ H (Hg _))).
  - exact (run_of_dispatch data _ _
             (dispatch_transactions_bad_index data _ H1 H2 (Hg _))).
Qed.

(** X13. A document that is an array passes as successful, exit status 0,
    exactly when neither the string ["outputs"] nor the string
    ["transactions"] is among its elements; when one is, indexing the array
    by the key raises and the only line is the handler's, exit status 1.
    A document that is a string behaves the same way, with "contains the
    text" in place of "has the element". *)
Theorem array_or_string_document :
  (forall xs,
      (In (PStr k_outputs) xs \/ In (PStr k_transactions) xs ->
       run (Ok (PList xs)) =
       ([[Lit "Validation Error: "; FExn (TypeError (BadIndex TList))]],
        1%Z)) /\
      (~ In (PStr k_outputs) xs -> ~ In (PStr k_transactions) xs ->
       run (Ok (PList xs)) = ([[Lit "Validation Successful"]], 0%Z))) /\
  (forall s,
      (str_contains s k_outputs = true \/
       str_contains s k_transactions = true ->
       run (Ok (PStr s)) =
       ([[Lit "Validation Error: "; FExn (TypeError (BadIndex TStr))]],
        1%Z)) /\
      (str_contains s k_outputs = false ->
       str_contains s k_transactions = false ->
       run (Ok (PStr s)) = ([[Lit "Validation Successful"]], 0%Z))).
Proof.
  split.
  - intros xs. split.
    + intros H. apply run_bad_index; [|reflexivity]. simpl.
      destruct (existsb (fun x => eq_str x k_outputs) xs) eqn:Ho;
        [now left | right; split; [reflexivity|]].
      destruct H as [H | H]; apply list_has_iff in H; congruence.
    + intros H1 H2.
      apply (run_of_dispatch (PList xs) (Ret tt) []).
      apply dispatch_neither; simpl; f_equal.
      * destruct (existsb (fun x => eq_str x k_outputs) xs) eqn:E;
          [|reflexivity].
        now apply list_has_iff in E.
      * destruct (existsb (fun x => eq_str x k_transactions) xs) eqn:E;
          [|reflexivity].
        now apply list_has_iff in E.
  - intros s. split.
    + intros H. apply run_bad_index; [|reflexivity]. simpl.
      destruct (str_contains s k_outputs) eqn:Ho;
        [now left | right; split; [reflexivity|]].
      destruct H as [H | H]; congruence.
    + intros H1 H2.
      apply (run_of_dispatch (PStr s) (Ret tt) []).
      apply dispatch_neither; simpl; congruence.
Qed.

Lemma array_or_string_document_witness :
  run (Ok (PList [PInt 1; PStr k_transactions])) =
  ([msg_validation_error (TypeError (BadIndex TList))], 1%Z).
Proof.
  apply (proj1 (proj1 array_or_string_document
                  [PInt 1; PStr k_transactions])).
  right. right. left. reflexivity.
Defined.

(* ================================================================== *)
(** ** The loop over [transactions] *)

(** C2, on the input [{"transactions": [{"spent_outputs": 5}]}]: the key is
    present, but [len] raises on the number, so the element is not reported
    and the run ends in the handler with exit status 1. *)
Lemma numeric_spent_outputs_fails :
  let tx := PDict [(k_spent_outputs, PInt 5)] in
  let doc := PDict [(k_transactions, PList [tx])] in
  py_contains k_spent_outputs tx = Ok true /\
  run (Ok doc) =
  ([msg_checking_transactions 1;
    msg_validation_error (TypeError (NoLen TInt))], 1%Z).
Proof. cbv zeta. split; reflexivity. Qed.

(** C2, amended. An element of [transactions] that is an object with the
    key [spent_outputs] passes when the value has a length (a string, an
    array or an object, of any contents and any length): the body prints
    its index and [len] of the value and the loop goes on.  In the run, when
    the elements before it pass as well, that line follows theirs; when it
    is the last element the run succeeds with exit status 0.  When the value
    has no length (a number, a boolean, [null]), [len] raises: the exit
    status is 1, and when the elements before it pass the last line is the
    handler's, with no line for that element. *)
Theorem transaction_with_spent_outputs_reported :
  (forall d pre tx rest so n,
      dict_get d k_outputs = None ->
      dict_get d k_transactions = Some (PList (pre ++ tx :: rest)) ->
      forallb passes_transaction pre = true ->
      py_getitem tx k_spent_outputs = Ok so ->
      py_len so = Ok n ->
      emits (check_transaction (length pre) tx) (Ret tt)
            [[Lit "Transaction "; FInt (length pre);
              Lit " has spent_outputs ("; FInt n; Lit " items)"]] /\
      (exists more,
          fst (run (Ok (PDict d))) =
          msg_checking_transactions (length (pre ++ tx :: rest))
            :: lines_from has_line 0 pre
            ++ msg_transaction_has (length pre) n :: more) /\
      (rest = [] ->
       run (Ok (PDict d)) =
       (msg_checking_transactions (length (pre ++ [tx]))
          :: lines_from has_line 0 pre
          ++ [msg_transaction_has (length pre) n; msg_successful],
        0%Z))) /\
  (forall d pre tx rest so,
      dict_get d k_outputs = None ->
      dict_get d k_transactions = Some (PList (pre ++ tx :: rest)) ->
      py_getitem tx k_spent_outputs = Ok so ->
      sized so = false ->
      snd (run (Ok (PDict d))) = 1%Z /\
      (forallb passes_transaction pre = true ->
       run (Ok (PDict d)) =
       (msg_checking_transactions (length (pre ++ tx :: rest))
          :: lines_from has_line 0 pre
          ++ [[Lit "Validation Error: ";
               FExn (TypeError (NoLen (type_of so)))]],
        1%Z))).
Proof.
  split.
  - intros d pre tx rest so n Hno Hd Hpre Hg Hl.
    pose proof (check_transaction_has (length pre) tx so n Hg Hl) as Etx.
    split; [exact Etx|].
    assert (loop : forall o ls,
               emits (for_enumerate check_transaction (S (length pre)) rest)
                     o ls ->
               run (Ok (PDict d)) =
               (msg_checking_transactions (length (pre ++ tx :: rest))
                  :: (lines_from has_line 0 pre
                        ++ [msg_transaction_has (length pre) n] ++ ls)
                  ++ closing o,
                exit_status (finish o))).
    { intros o ls E. apply run_transactions; auto.
      apply emits_for_app with passes_transaction;
        auto using check_transaction_passes.
      now apply emits_for_cons. }
    split.
    + destruct (for_enumerate_post Transactions _ check_transaction_post
                  rest (S (length pre))) as (o & ls & E & _).
      rewrite (loop o ls E). cbn [fst].
      exists (ls ++ closing o).
      now rewrite <- !app_assoc.
    + intros ->. rewrite (loop (Ret tt) [] (emits_for_nil _ _)).
      cbn [closing finish exit_status]. now rewrite <- !app_assoc.
  - intros d pre tx rest so Hno Hd Hg Hs.
    assert (Hl : py_len so = Error (TypeError (NoLen (type_of so)))).
    { destruct so; simpl in *; try discriminate; reflexivity. }
    split.
    + assert (Hall : forallb passes_transaction (pre ++ tx :: rest) = false).
      { rewrite forallb_app. simpl. unfold passes_transaction at 2.
        rewrite Hg, Hl. simpl. apply andb_false_r. }
      destruct (first_failure _ _ Hall) as (pre' & x & rest' & E & Hpre' & Hx).
      rewrite E in Hd.
      destruct (check_transaction_fails (length pre') x Hx) as (r & ls & Ex & P).
      rewrite (run_transactions_at d pre' x rest' r ls Hno Hd Hpre' Ex).
      cbn [snd]. exact (exit_status_raised _ _ _ P).
    + intros Hpre.
      rewrite (run_transactions_at d pre tx rest _ [] Hno Hd Hpre
                 (check_transaction_unsized _ _ _ _
                    (getitem_contains _ _ _ Hg) Hg Hl)).
      cbn [closing finish exit_status]. now rewrite app_nil_r.
Qed.

Lemma transaction_with_spent_outputs_reported_witness :
  run (Ok (PDict [(k_transactions,
                   PList [PDict [(k_spent_outputs,
                                  PList [PInt 1; PInt 2; PInt 3])]])])) =
  ([msg_checking_transactions 1; msg_transaction_has 0 3; msg_successful],
   0%Z) /\
  run (Ok (PDict [(k_transactions,
                   PList [PDict [(k_spent_outputs, PBool true)]])])) =
  ([msg_checking_transactions 1;
    msg_validation_error (TypeError (NoLen TBool))], 1%Z).
Proof.
  split.
  - apply (proj2 (proj2 (proj1 transaction_with_spent_outputs_reported
             [(k_transactions,
               PList [PDict [(k_spent_outputs,
                              PList [PInt 1; PInt 2; PInt 3])]])]
             [] (PDict [(k_spent_outputs, PList [PInt 1; PInt 2; PInt 3])]) []
             (PList [PInt 1; PInt 2; PInt 3]) 3
             eq_refl eq_refl eq_refl eq_refl eq_refl)) eq_refl).
  - apply (proj2 (proj2 transaction_with_spent_outputs_reported
             [(k_transactions, PList [PDict [(k_spent_outputs, PBool true)]])]
             [] (PDict [(k_spent_outputs, PBool true)]) [] (PBool true)
             eq_refl eq_refl eq_refl eq_refl) eq_refl).
Defined.
